(** * gonerator: the extraction and generation pipeline, embedded in Rocq

    The development follows [internal/generator]: the Go library functions
    the package calls ([strings], [fmt.Sscanf]) are modelled first, then the
    syntax tree of [go/ast] the extractor walks, then [parser.go]
    ([parseFile], [parseMethod], [parseStructFields],
    [parseApiValidatorTag], [strToInt]) and [Generate]. *)

From Stdlib Require Import ZArith Ascii String List Lia Bool.
From stdpp Require Import base option list strings gmap sorting.

Local Open Scope string_scope.
Local Open Scope list_scope.

(** ** Results of Go calls

    A Go call returns normally with a value, returns a non-nil [error], or
    panics (a failed type assertion, an index out of range, a nil
    dereference).  Nothing in the package recovers a panic, so it unwinds
    through every caller. *)

Definition error := string.

Inductive outcome (A : Type) : Type :=
  | Ok (a : A)
  | Err (e : error)
  | Panic (msg : string).

Arguments Ok {A} a.
Arguments Err {A} e.
Arguments Panic {A} msg.

#[global] Instance outcome_ret : MRet outcome := fun A a => Ok a.

#[global] Instance outcome_bind : MBind outcome := fun A B k c =>
  match c with
  | Ok a => k a
  | Err e => Err e
  | Panic p => Panic p
  end.

Definition isOk {A} (c : outcome A) : bool :=
  match c with Ok _ => true | _ => false end.

(** The abort carried by an outcome that is not [Ok], at any result type. *)
Definition abort_of {A B} (c : outcome A) (dflt : outcome B) : outcome B :=
  match c with
  | Ok _ => dflt
  | Err e => Err e
  | Panic p => Panic p
  end.

(** ** Package [strings] *)

Module GoStrings.

(** [strings.HasPrefix s prefix]. *)
Fixpoint HasPrefix (s prefix : string) : bool :=
  match prefix, s with
  | EmptyString, _ => true
  | String _ _, EmptyString => false
  | String p prefix', String c s' =>
      if Ascii.eqb p c then HasPrefix s' prefix' else false
  end.

Fixpoint drop (n : nat) (s : string) : string :=
  match n, s with
  | O, _ => s
  | S _, EmptyString => EmptyString
  | S n', String _ s' => drop n' s'
  end.

(** [strings.TrimPrefix s prefix]. *)
Definition TrimPrefix (s prefix : string) : string :=
  if HasPrefix s prefix then drop (String.length prefix) s else s.

Fixpoint inCutset (c : ascii) (cutset : string) : bool :=
  match cutset with
  | EmptyString => false
  | String d cutset' => Ascii.eqb c d || inCutset c cutset'
  end.

Fixpoint TrimLeft (s cutset : string) : string :=
  match s with
  | EmptyString => EmptyString
  | String c s' => if inCutset c cutset then TrimLeft s' cutset else s
  end.

Fixpoint TrimRight (s cutset : string) : string :=
  match s with
  | EmptyString => EmptyString
  | String c s' =>
      match TrimRight s' cutset with
      | EmptyString => if inCutset c cutset then EmptyString else String c EmptyString
      | t => String c t
      end
  end.

(** [strings.Trim s cutset], for a cutset of one-byte characters (the
    source passes a back quote and a double quote). *)
Definition Trim (s cutset : string) : string :=
  TrimRight (TrimLeft s cutset) cutset.

(** [strings.Split s sep] for a separator of one byte, which is what
    every call of the source passes ([","] and ["|"]).  The result is
    never empty: a string without the separator is returned whole. *)
Fixpoint Split (s : string) (sep : ascii) : list string :=
  match s with
  | EmptyString => [EmptyString]
  | String c s' =>
      if Ascii.eqb c sep then EmptyString :: Split s' sep
      else match Split s' sep with
           | [] => [String c EmptyString]
           | p :: ps => String c p :: ps
           end
  end.

(** [strings.SplitN s sep n] for a one-byte separator and [n >= 0]:
    at most [n] pieces, the last one the unsplit remainder. *)
Fixpoint SplitN (s : string) (sep : ascii) (n : nat) {struct s} : list string :=
  match n with
  | O => []
  | S O => [s]
  | S (S _ as n') =>
      match s with
      | EmptyString => [EmptyString]
      | String c s' =>
          if Ascii.eqb c sep then EmptyString :: SplitN s' sep n'
          else match SplitN s' sep n with
               | [] => [String c EmptyString]
               | p :: ps => String c p :: ps
               end
      end
  end.

End GoStrings.

(** ** [fmt.Sscanf] with the format ["%d"] *)

Module GoFmt.

Local Open Scope Z_scope.

Definition byteZ (c : ascii) : Z := Z.of_N (N_of_ascii c).

(** The width of Go's [int] on the 64-bit targets. *)
Definition intBits : Z := 64.

Definition isCont (b : Z) : bool := (0x80 <=? b) && (b <=? 0xBF).

(** [utf8.DecodeRuneInString]: the first code point and the rest of the
    string; an invalid encoding yields [RuneError] (U+FFFD) and consumes
    one byte. *)
Definition decodeRune (s : string) : option (Z * string) :=
  match s with
  | EmptyString => None
  | String c0 r0 =>
      let b0 := byteZ c0 in
      let bad := Some (0xFFFD, r0) in
      if b0 <? 0x80 then Some (b0, r0)
      else if (0xC2 <=? b0) && (b0 <=? 0xDF) then
        match r0 with
        | String c1 r1 =>
            let b1 := byteZ c1 in
            if isCont b1
            then Some (Z.lor (Z.shiftl (Z.land b0 0x1F) 6) (Z.land b1 0x3F), r1)
            else bad
        | _ => bad
        end
      else if (0xE0 <=? b0) && (b0 <=? 0xEF) then
        match r0 with
        | String c1 (String c2 r2) =>
            let b1 := byteZ c1 in
            let b2 := byteZ c2 in
            let lo := if b0 =? 0xE0 then 0xA0 else 0x80 in
            let hi := if b0 =? 0xED then 0x9F else 0xBF in
            if (lo <=? b1) && (b1 <=? hi) && isCont b2
            then Some (Z.lor (Z.shiftl (Z.land b0 0x0F) 12)
                         (Z.lor (Z.shiftl (Z.land b1 0x3F) 6) (Z.land b2 0x3F)), r2)
            else bad
        | _ => bad
        end
      else if (0xF0 <=? b0) && (b0 <=? 0xF4) then
        match r0 with
        | String c1 (String c2 (String c3 r3)) =>
            let b1 := byteZ c1 in
            let b2 := byteZ c2 in
            let b3 := byteZ c3 in
            let lo := if b0 =? 0xF0 then 0x90 else 0x80 in
            let hi := if b0 =? 0xF4 then 0x8F else 0xBF in
            if (lo <=? b1) && (b1 <=? hi) && isCont b2 && isCont b3
            then Some (Z.lor (Z.shiftl (Z.land b0 0x07) 18)
                         (Z.lor (Z.shiftl (Z.land b1 0x3F) 12)
                            (Z.lor (Z.shiftl (Z.land b2 0x3F) 6) (Z.land b3 0x3F))), r3)
            else bad
        | _ => bad
        end
      else bad
  end.

(** The table [space] of [fmt/scan.go]. *)
Definition isSpace (r : Z) : bool :=
  ((0x0009 <=? r) && (r <=? 0x000d)) || (r =? 0x0020) || (r =? 0x0085)
  || (r =? 0x00a0) || (r =? 0x1680) || ((0x2000 <=? r) && (r <=? 0x200a))
  || ((0x2028 <=? r) && (r <=? 0x2029)) || (r =? 0x202f) || (r =? 0x205f)
  || (r =? 0x3000).

(** [ss.SkipSpace] for [Sscanf], where a newline is not a space: leading
    spaces are dropped, a newline among them is the error
    "unexpected newline".  A carriage return is a space whether or not a
    newline follows; the newline is then met on the next turn. *)
Fixpoint SkipSpace (fuel : nat) (s : string) : error + string :=
  match fuel with
  | O => inr s
  | S fuel' =>
      match decodeRune s with
      | None => inr s
      | Some (r, rest) =>
          if r =? 0x0a then inl "unexpected newline"
          else if isSpace r then SkipSpace fuel' rest
          else inr s
      end
  end.

Definition isDigit (c : ascii) : bool :=
  (48 <=? byteZ c) && (byteZ c <=? 57).

(** [ss.accept sign]: one optional ['+'] or ['-']; the flag says that a
    minus sign was read. *)
Definition acceptSign (s : string) : bool * string :=
  match s with
  | String "-" s' => (true, s')
  | String "+" s' => (false, s')
  | _ => (false, s)
  end.

(** The decimal digits [ss.scanNumber] accepts, folded into their value
    as [strconv.ParseInt] reads them, and the number of digits read. *)
Fixpoint scanDigits (s : string) (acc : Z) (n : nat) : Z * nat :=
  match s with
  | String c s' =>
      if isDigit c then scanDigits s' (10 * acc + (byteZ c - 48)) (S n)
      else (acc, n)
  | EmptyString => (acc, n)
  end.

(** [fmt.Sscanf(s, "%d", &i)] with [i] an [int] that holds 0 before the
    call: the value left in [i] and the error ([None] for nil; the
    texts stand for Go's error values).  Input after the number is not
    looked at, and an input of [hugeWid] = 2^30 runes or more, where the
    scanner stops reading, is left out. *)
Definition Sscanf_d (s : string) : Z * option error :=
  match SkipSpace (String.length s) s with
  | inl e => (0, Some e)
  | inr s1 =>
      match s1 with
      | EmptyString => (0, Some "EOF")
      | _ =>
          let '(neg, s2) := acceptSign s1 in
          match s2 with
          | EmptyString => (0, Some "EOF")
          | _ =>
              let '(mag, n) := scanDigits s2 0 O in
              match n with
              | O => (0, Some "expected integer")
              | S _ =>
                  let v := if neg then - mag else mag in
                  if (- 2 ^ (intBits - 1) <=? v) && (v <=? 2 ^ (intBits - 1) - 1)
                  then (v, None)
                  else (0, Some "value out of range")
              end
          end
      end
  end.

End GoFmt.

(** ** The syntax tree of [go/ast], as far as the extractor reads it *)

Module GoAst.

(** [ast.BasicLit]: [Value] is the literal as written, quotes included. *)
Record BasicLit := { Value : string }.

(** Expressions and fields.  The extractor tells identifiers, pointer
    types and struct types from everything else. *)
Inductive Expr : Type :=
  | Ident (name : string)
  | StarExpr (X : Expr)
  | SelectorExpr (X : Expr) (Sel : string)
  | ArrayType (Elt : Expr)
  | StructType (Fields : list Field)
  | OtherExpr (text : string)
with Field : Type :=
  | mkField (Names : list string) (Typ : Expr) (Tag : option BasicLit).

Definition Names (f : Field) : list string :=
  match f with mkField ns _ _ => ns end.
Definition Typ (f : Field) : Expr :=
  match f with mkField _ t _ => t end.
Definition Tag (f : Field) : option BasicLit :=
  match f with mkField _ _ t => t end.

Record TypeSpec := { ts_Name : string; ts_Type : Expr }.

(** [ast.FuncType]: [Params] is never nil in a parsed file, [Results]
    is nil for a function without results. *)
Record FuncType := { Params : list Field; Results : option (list Field) }.

(** [ast.FuncDecl].  [fd_Doc] holds the [Text] of each comment of the
    doc comment group (nil when there is none), [fd_Recv] is nil for a
    package-level function, and [fd_BodyTypes] lists the type
    specifications declared inside the body, in the order [ast.Inspect]
    meets them. *)
Record FuncDecl := {
  fd_Doc : option (list string);
  fd_Recv : option (list Field);
  fd_Name : string;
  fd_Type : FuncType;
  fd_BodyTypes : list TypeSpec
}.

Inductive Spec : Type :=
  | TypeSpecS (ts : TypeSpec)
  | ImportSpec
  | ValueSpec (nested : list TypeSpec).

Inductive Decl : Type :=
  | FuncDeclD (fd : FuncDecl)
  | GenDecl (specs : list Spec)
  | BadDecl.

(** [ast.File]: the package name and the top-level declarations in
    source order. *)
Record File := { f_Name : string; f_Decls : list Decl }.

(** The [*ast.TypeSpec] nodes in the order [ast.Inspect] visits them
    (depth first, declarations in source order). *)
Definition specTypeSpecs (s : Spec) : list TypeSpec :=
  match s with
  | TypeSpecS ts => [ts]
  | ImportSpec => []
  | ValueSpec nested => nested
  end.

Definition declTypeSpecs (d : Decl) : list TypeSpec :=
  match d with
  | FuncDeclD fd => fd_BodyTypes fd
  | GenDecl specs => concat (map specTypeSpecs specs)
  | BadDecl => []
  end.

Definition InspectTypeSpecs (f : File) : list TypeSpec :=
  concat (map declTypeSpecs (f_Decls f)).

End GoAst.

Export GoAst.

(** ** [parser.go]: the data model *)

(** [ApiMethod]: the directive decoded from the comment. *)
Record ApiMethod := {
  am_Url : string;
  am_Auth : bool;
  am_Method : string;
  am_AuthEnvKey : string
}.

(** [ApiValidatorTag]: [Min] and [Max] are [*int], nil is [None]; a nil
    [Enum] is the empty list. *)
Record ApiValidatorTag := {
  Required : bool;
  Min : option Z;
  Max : option Z;
  ParamName : string;
  Enum : list string;
  Default : string
}.

Record StructField := {
  sf_Name : string;
  sf_Type : string;
  sf_Tag : ApiValidatorTag
}.

Record Method := {
  m_Name : string;
  m_ReceiverName : string;
  m_ReceiverType : string;
  m_InputType : string;
  m_OutputType : string;
  m_ApiMethod : ApiMethod;
  m_StructFields : list StructField
}.

(** The zero values [ApiMethod{}] and [ApiValidatorTag{}]. *)
Definition zeroApiMethod : ApiMethod :=
  {| am_Url := ""; am_Auth := false; am_Method := ""; am_AuthEnvKey := "" |}.

Definition zeroTag : ApiValidatorTag :=
  {| Required := false; Min := None; Max := None; ParamName := "";
     Enum := []; Default := "" |}.

(** ** [parser.go]: the tag grammar *)

(** [strToInt]: the pair [fmt.Sscanf] leaves, value and error. *)
Definition strToInt (s : string) : Z * option error := GoFmt.Sscanf_d s.

(** The key and the value of one clause: [strings.SplitN(part, "=", 2)],
    [keyValue[0]], and [keyValue[1]] when there is one. *)
Definition clauseKey (part : string) : string :=
  match GoStrings.SplitN part "=" 2 with
  | k :: _ => k
  | [] => ""
  end.

Definition clauseValue (part : string) : string :=
  match GoStrings.SplitN part "=" 2 with
  | _ :: v :: _ => v
  | _ => ""
  end.

(** The body of the loop of [parseApiValidatorTag]: the [switch] on the
    key of one clause. *)
Definition applyClause (result : ApiValidatorTag) (part : string) : ApiValidatorTag :=
  let key := clauseKey part in
  let value := clauseValue part in
  if String.eqb key "required" then
    {| Required := true; Min := Min result; Max := Max result;
       ParamName := ParamName result; Enum := Enum result; Default := Default result |}
  else if String.eqb key "paramname" then
    {| Required := Required result; Min := Min result; Max := Max result;
       ParamName := value; Enum := Enum result; Default := Default result |}
  else if String.eqb key "enum" then
    {| Required := Required result; Min := Min result; Max := Max result;
       ParamName := ParamName result; Enum := GoStrings.Split value "|";
       Default := Default result |}
  else if String.eqb key "default" then
    {| Required := Required result; Min := Min result; Max := Max result;
       ParamName := ParamName result; Enum := Enum result; Default := value |}
  else if String.eqb key "min" then
    match strToInt value with
    | (intValue, None) =>
        {| Required := Required result; Min := Some intValue; Max := Max result;
           ParamName := ParamName result; Enum := Enum result; Default := Default result |}
    | (_, Some _) => result
    end
  else if String.eqb key "max" then
    match strToInt value with
    | (intValue, None) =>
        {| Required := Required result; Min := Min result; Max := Some intValue;
           ParamName := ParamName result; Enum := Enum result; Default := Default result |}
    | (_, Some _) => result
    end
  else result.

(** The one-character string holding a double quote. *)
Definition dquote : string := String (ascii_of_nat 34) EmptyString.

(** The clauses of a tag literal: back quotes trimmed, the prefix
    [apivalidator:] cut, double quotes trimmed, split at commas. *)
Definition tagClauses (tagValue : string) : list string :=
  let tagValue := GoStrings.Trim tagValue "`" in
  let apiValidatorTag := GoStrings.TrimPrefix tagValue "apivalidator:" in
  let apiValidatorTag := GoStrings.Trim apiValidatorTag dquote in
  GoStrings.Split apiValidatorTag ",".

(** [parseApiValidatorTag]. *)
Definition parseApiValidatorTag (tag : option BasicLit) : ApiValidatorTag :=
  match tag with
  | None => zeroTag
  | Some lit => fold_left applyClause (tagClauses (Value lit)) zeroTag
  end.

(** ** The world outside the package *)

(** The keys a directive's JSON object can carry; [None] is an absent key
    (or the value [null], which [encoding/json] treats alike). *)
Record DirectiveJSON := {
  j_url : option string;
  j_auth : option bool;
  j_method : option string;
  j_auth_env_key : option string
}.

(** The data handed to the template: [PackageName] and the Go map
    [Methods] from receiver type to the methods of that type. *)
Record RenderData := {
  PackageName : string;
  Methods : gmap string (list Method)
}.

Inductive ParseMode := ParseComments | PackageClauseOnly.

(** The file system: the content of each existing file, and the paths
    [os.WriteFile] is refused on. *)
Record FS := {
  contents : gmap string string;
  denied : gset string
}.

(** What the package calls and does not define.  [go_parse] is
    [go/parser] on a source text, [json_object] the decoding of a JSON text
    by [encoding/json] into the four keys of [ApiMethod], [exprText] what
    [fmt.Sprintf("%s", e)] prints for an expression that is not an
    identifier, [format_Source] is [go/format.Source].
    [handlerTemplate_Execute] is [handlerTemplate.Execute]: the template is
    declared in a file of the package that is not among the sources at
    hand, so it is taken as a function of the render data. *)
Record Externals := {
  go_parse : ParseMode -> string -> outcome File;
  json_object : string -> outcome DirectiveJSON;
  exprText : Expr -> string;
  handlerTemplate_Execute : RenderData -> outcome string;
  format_Source : string -> outcome string
}.

(** [os.WriteFile]: the file is created or overwritten, unless the path
    is refused, which leaves the file system as it was. *)
Definition os_WriteFile (fs : FS) (name data : string) : outcome unit * FS :=
  if decide (name ∈ denied fs)
  then (Err "permission denied", fs)
  else (Ok tt, {| contents := <[name := data]> (contents fs); denied := denied fs |}).

(** ** Go's run-time checks *)

(** [l[i]]: an index out of range panics. *)
Definition index {A} (l : list A) (i : nat) : outcome A :=
  match l !! i with
  | Some x => Ok x
  | None => Panic "index out of range"
  end.

(** [p.List] on a [*ast.FieldList] that may be nil. *)
Definition fieldList (p : option (list Field)) : outcome (list Field) :=
  match p with
  | Some l => Ok l
  | None => Panic "invalid memory address or nil pointer dereference"
  end.

(** The type assertions to [StarExpr] (then [.X]) and to [Ident] (then
    [.Name]): an assertion without the comma-ok form panics when the
    dynamic type differs. *)
Definition assertStarExpr (e : Expr) : outcome Expr :=
  match e with
  | StarExpr x => Ok x
  | _ => Panic "interface conversion: ast.Expr is not *ast.StarExpr"
  end.

Definition assertIdent (e : Expr) : outcome string :=
  match e with
  | Ident name => Ok name
  | _ => Panic "interface conversion: ast.Expr is not *ast.Ident"
  end.

(** Storing the decoded keys into an [ApiMethod]: a key that is present
    overwrites its field, the others are left as they are. *)
Definition storeInto (j : DirectiveJSON) (v : ApiMethod) : ApiMethod :=
  {| am_Url := default (am_Url v) (j_url j);
     am_Auth := default (am_Auth v) (j_auth j);
     am_Method := default (am_Method v) (j_method j);
     am_AuthEnvKey := default (am_AuthEnvKey v) (j_auth_env_key j) |}.

(** ** [parser.go] and [Generate] *)

Section Generator.

Variable E : Externals.

(** [parser.ParseFile(fset, filename, nil, mode)]: reads the file and
    parses its text. *)
Definition ParseFile (fs : FS) (filename : string) (mode : ParseMode) : outcome File :=
  match contents fs !! filename with
  | Some src => go_parse E mode src
  | None => Err "no such file or directory"
  end.

(** [json.Unmarshal(data, &v)] for [v] an [ApiMethod]. *)
Definition json_Unmarshal (data : string) (v : ApiMethod) : outcome ApiMethod :=
  j ← json_object E data;
  Ok (storeInto j v).

(** [fmt.Sprintf("%s", field.Type)]: an identifier prints its name. *)
Definition Sprintf_s (e : Expr) : string :=
  match e with
  | Ident name => name
  | _ => exprText E e
  end.

(** The fields one struct declaration contributes: the named ones, under
    their first name. *)
Definition structFieldOf (field : Field) : list StructField :=
  match Names field with
  | fieldName :: _ =>
      [ {| sf_Name := fieldName;
           sf_Type := Sprintf_s (Typ field);
           sf_Tag := parseApiValidatorTag (Tag field) |} ]
  | [] => []
  end.

Definition typeSpecFields (structName : string) (typeSpec : TypeSpec) : list StructField :=
  if String.eqb (ts_Name typeSpec) structName then
    match ts_Type typeSpec with
    | StructType fields => concat (map structFieldOf fields)
    | _ => []
    end
  else [].

(** [parseStructFields]: the file is parsed again and every type
    specification of that name adds its fields. *)
Definition parseStructFields (fs : FS) (filename structName : string)
  : outcome (list StructField) :=
  node ← ParseFile fs filename ParseComments;
  Ok (concat (map (typeSpecFields structName) (InspectTypeSpecs node))).

Definition directivePrefix : string := "// apigen:api".

(** The default-filling of [parseMethod]. *)
Definition fillDefaults (a : ApiMethod) : ApiMethod :=
  let a1 :=
    if String.eqb (am_Method a) EmptyString
    then {| am_Url := am_Url a; am_Auth := am_Auth a;
            am_Method := "GET,POST"; am_AuthEnvKey := am_AuthEnvKey a |}
    else a in
  if am_Auth a1 && String.eqb (am_AuthEnvKey a1) EmptyString
  then {| am_Url := am_Url a1; am_Auth := am_Auth a1;
          am_Method := am_Method a1; am_AuthEnvKey := "API_AUTH_KEY" |}
  else a1.

(** The positional reads that open [parseMethod], in the order the
    composite literal evaluates them. *)
Definition readSignature (funcDecl : FuncDecl) : outcome Method :=
  recv ← fieldList (fd_Recv funcDecl);
  recv0 ← index recv 0;
  receiverName ← index (Names recv0) 0;
  recvStar ← assertStarExpr (Typ recv0);
  receiverType ← assertIdent recvStar;
  param1 ← index (Params (fd_Type funcDecl)) 1;
  inputType ← assertIdent (Typ param1);
  results ← fieldList (Results (fd_Type funcDecl));
  result0 ← index results 0;
  resStar ← assertStarExpr (Typ result0);
  outputType ← assertIdent resStar;
  Ok {| m_Name := fd_Name funcDecl;
        m_ReceiverName := receiverName;
        m_ReceiverType := receiverType;
        m_InputType := inputType;
        m_OutputType := outputType;
        m_ApiMethod := zeroApiMethod;
        m_StructFields := [] |}.

Definition withApiMethod (m : Method) (a : ApiMethod) : Method :=
  {| m_Name := m_Name m; m_ReceiverName := m_ReceiverName m;
     m_ReceiverType := m_ReceiverType m; m_InputType := m_InputType m;
     m_OutputType := m_OutputType m; m_ApiMethod := a;
     m_StructFields := m_StructFields m |}.

Definition withStructFields (m : Method) (fields : list StructField) : Method :=
  {| m_Name := m_Name m; m_ReceiverName := m_ReceiverName m;
     m_ReceiverType := m_ReceiverType m; m_InputType := m_InputType m;
     m_OutputType := m_OutputType m; m_ApiMethod := m_ApiMethod m;
     m_StructFields := fields |}.

(** [parseMethod]. *)
Definition parseMethod (fs : FS) (funcDecl : FuncDecl) (comment filename : string)
  : outcome Method :=
  method ← readSignature funcDecl;
  apiMethod ← json_Unmarshal (GoStrings.TrimPrefix comment directivePrefix) zeroApiMethod;
  let method := withApiMethod method (fillDefaults apiMethod) in
  structFields ← parseStructFields fs filename (m_InputType method);
  Ok (withStructFields method structFields).

(** The inner loop of [parseFile] over the comments of one doc comment:
    the first comment with the directive prefix is parsed and ends the
    loop. *)
Fixpoint scanDoc (fs : FS) (funcDecl : FuncDecl) (comments : list string)
    (filename : string) (methods : list Method) : outcome (list Method) :=
  match comments with
  | [] => Ok methods
  | comment :: rest =>
      if GoStrings.HasPrefix comment directivePrefix then
        method ← parseMethod fs funcDecl comment filename;
        Ok (methods ++ [method])
      else scanDoc fs funcDecl rest filename methods
  end.

(** The outer loop of [parseFile] over the declarations. *)
Fixpoint scanDecls (fs : FS) (decls : list Decl) (filename : string)
    (methods : list Method) : outcome (list Method) :=
  match decls with
  | [] => Ok methods
  | decl :: rest =>
      match decl with
      | FuncDeclD funcDecl =>
          match fd_Doc funcDecl with
          | Some comments =>
              methods' ← scanDoc fs funcDecl comments filename methods;
              scanDecls fs rest filename methods'
          | None => scanDecls fs rest filename methods
          end
      | _ => scanDecls fs rest filename methods
      end
  end.

(** [parseFile]. *)
Definition parseFile (fs : FS) (filename : string) : outcome (list Method) :=
  node ← ParseFile fs filename ParseComments;
  scanDecls fs (f_Decls node) filename [].

(** [getPackageName]. *)
Definition getPackageName (fs : FS) (filename : string) : outcome string :=
  node ← ParseFile fs filename PackageClauseOnly;
  Ok (f_Name node).

(** The grouping loop of [Generate]:
    [groupedMethods[k] = append(groupedMethods[k], method)]. *)
Definition addMethod (groupedMethods : gmap string (list Method)) (method : Method)
  : gmap string (list Method) :=
  <[m_ReceiverType method :=
      default [] (groupedMethods !! m_ReceiverType method) ++ [method]]> groupedMethods.

Definition groupMethods (methods : list Method) : gmap string (list Method) :=
  fold_left addMethod methods ∅.

(** [Generate]: the result and the file system it leaves. *)
Definition Generate (inputFile outputFile : string) (fs : FS) : outcome unit * FS :=
  let formattedCode :=
    methods ← parseFile fs inputFile;
    packageName ← getPackageName fs inputFile;
    let groupedMethods := groupMethods methods in
    let data := {| PackageName := packageName; Methods := groupedMethods |} in
    buf ← handlerTemplate_Execute E data;
    format_Source E buf in
  match formattedCode with
  | Ok code => os_WriteFile fs outputFile code
  | Err e => (Err e, fs)
  | Panic p => (Panic p, fs)
  end.

End Generator.

(** ** Notions the properties are stated with *)

(** The directive comment of a declaration: the first comment of its doc
    comment that starts with the directive prefix, as the inner loop of
    [parseFile] picks it. *)
Definition directiveOf (funcDecl : FuncDecl) : option string :=
  match fd_Doc funcDecl with
  | Some comments =>
      find (fun comment => GoStrings.HasPrefix comment directivePrefix) comments
  | None => None
  end.

(** The declarations [parseFile] hands to [parseMethod], in source order,
    each with its directive comment. *)
Definition annotatedOf (decl : Decl) : option (FuncDecl * string) :=
  match decl with
  | FuncDeclD funcDecl =>
      match directiveOf funcDecl with
      | Some comment => Some (funcDecl, comment)
      | None => None
      end
  | _ => None
  end.

Definition annotated (decls : list Decl) : list (FuncDecl * string) :=
  omap annotatedOf decls.

(** The payload [parseMethod] decodes. *)
Definition payloadOf (comment : string) : string :=
  GoStrings.TrimPrefix comment directivePrefix.

Definition isPointerToIdent (e : Expr) : bool :=
  match e with
  | StarExpr (Ident _) => true
  | _ => false
  end.

Definition isIdent (e : Expr) : bool :=
  match e with
  | Ident _ => true
  | _ => false
  end.

Definition isContext (e : Expr) : bool :=
  match e with
  | SelectorExpr (Ident "context") "Context" => true
  | _ => false
  end.

Definition isError (e : Expr) : bool :=
  match e with
  | Ident "error" => true
  | _ => false
  end.

(** A field that declares one parameter: one name, or none. *)
Definition declaresOne (f : Field) : bool := Nat.leb (length (Names f)) 1.

(** The signature shape in the words of the specification: a pointer
    receiver, exactly the two parameters (context, input struct) and
    exactly the two results (pointer to the output struct, [error]). *)
Definition hasSpecShape (funcDecl : FuncDecl) : bool :=
  match fd_Recv funcDecl with
  | Some [recv] => isPointerToIdent (Typ recv)
  | _ => false
  end
  && match Params (fd_Type funcDecl) with
     | [ctx; input] =>
         declaresOne ctx && isContext (Typ ctx)
         && declaresOne input && isIdent (Typ input)
     | _ => false
     end
  && match Results (fd_Type funcDecl) with
     | Some [output; err] =>
         declaresOne output && isPointerToIdent (Typ output)
         && declaresOne err && isError (Typ err)
     | _ => false
     end.


(** The receiver types of a method list in the order of their first
    appearance, in the words of the specification. *)
Fixpoint firstSeen (keys : list string) : list string :=
  match keys with
  | [] => []
  | k :: rest => k :: filter (fun k' => k' ≠ k) (firstSeen rest)
  end.

(** The methods of one receiver type, in the order of the list. *)
Definition methodsOf (receiverType : string) (methods : list Method) : list Method :=
  filter (fun m => m_ReceiverType m = receiverType) methods.

(** Go compares strings byte by byte; [text/template] visits the entries
    of a map with string keys in ascending order of the keys. *)
Definition keyLe {V} (a b : string * V) : Prop := String.leb a.1 b.1 = true.

#[global] Instance keyLe_dec {V} (a b : string * V) : Decision (keyLe a b).
Proof. unfold keyLe. apply _. Defined.

Definition templateRange {V} (m : gmap string V) : list (string * V) :=
  merge_sort keyLe (map_to_list m).

(** The content of a file. *)
Definition readFile (fs : FS) (name : string) : option string := contents fs !! name.

(** What one declaration adds to the method list: the step of the outer
    loop of [parseFile]. *)
Definition stepDecl (E : Externals) (fs : FS) (filename : string)
    (methods : list Method) (decl : Decl) : outcome (list Method) :=
  match annotatedOf decl with
  | Some (funcDecl, comment) =>
      method ← parseMethod E fs funcDecl comment filename;
      Ok (methods ++ [method])
  | None => Ok methods
  end.

(** The receiver type [parseMethod] reads from a declaration, when its
    positional reads go through. *)
Definition declReceiverType (funcDecl : FuncDecl) : option string :=
  match readSignature funcDecl with
  | Ok m => Some (m_ReceiverType m)
  | _ => None
  end.

(** The signatures the positional reads of [parseMethod] go through on:
    a first receiver field with a name and a pointer-to-identifier type, a
    second parameter field of identifier type, and a first result field of
    pointer-to-identifier type.  Nothing else of the signature is read. *)
Definition readableShape (funcDecl : FuncDecl) : bool :=
  match fd_Recv funcDecl with
  | Some (mkField (_ :: _) (StarExpr (Ident _)) _ :: _) => true
  | _ => false
  end
  && match Params (fd_Type funcDecl) with
     | _ :: mkField _ (Ident _) _ :: _ => true
     | _ => false
     end
  && match Results (fd_Type funcDecl) with
     | Some (mkField _ (StarExpr (Ident _)) _ :: _) => true
     | _ => false
     end.

(** ** Sample inputs

    The declarations of [example/api.go] that matter to the generator, and
    small variations of them, as parsed files; with a parser, a JSON
    decoder, a template and a formatter that are defined on these
    samples. *)

Module Sample.

Definition jstr (s : string) : string := dquote ++ s ++ dquote.

Definition tagLit (s : string) : option BasicLit :=
  Some {| Value := "`apivalidator:" ++ jstr s ++ "`" |}.

Definition ctxParam : Field :=
  mkField ["ctx"] (SelectorExpr (Ident "context") "Context") None.

Definition errResult : Field := mkField [] (Ident "error") None.

(** [func (srv *recvType) name(ctx context.Context, in inType) ( *outType, error)]
    under the doc comment [doc]. *)
Definition methodDecl (doc : list string) (recvType name inType outType : string)
  : FuncDecl :=
  {| fd_Doc := Some doc;
     fd_Recv := Some [mkField ["srv"] (StarExpr (Ident recvType)) None];
     fd_Name := name;
     fd_Type := {| Params := [ctxParam; mkField ["in"] (Ident inType) None];
                   Results := Some [mkField [] (StarExpr (Ident outType)) None; errResult] |};
     fd_BodyTypes := [] |}.

Definition profileDirective : string :=
  "// apigen:api {" ++ jstr "url" ++ ": " ++ jstr "/user/profile" ++ ", "
  ++ jstr "auth" ++ ": false}".

Definition createDirective : string :=
  "// apigen:api {" ++ jstr "url" ++ ": " ++ jstr "/user/create" ++ ", "
  ++ jstr "auth" ++ ": true, " ++ jstr "method" ++ ": " ++ jstr "POST" ++ "}".

Definition emptyDirective : string := "// apigen:api {}".

(** A directive whose payload is not JSON. *)
Definition brokenDirective : string := "// apigen:api {url: /user/create".

Definition ProfileParams : TypeSpec :=
  {| ts_Name := "ProfileParams";
     ts_Type := StructType [mkField ["Login"] (Ident "string") (tagLit "required")] |}.

Definition CreateParams : TypeSpec :=
  {| ts_Name := "CreateParams";
     ts_Type := StructType
       [mkField ["Login"] (Ident "string") (tagLit "required,min=10");
        mkField ["Name"] (Ident "string") (tagLit "paramname=full_name");
        mkField ["Status"] (Ident "string") (tagLit "enum=user|moderator|admin,default=user");
        mkField ["Age"] (Ident "int") (tagLit "min=0,max=128")] |}.

Definition Profile : FuncDecl :=
  methodDecl [profileDirective] "MyApi" "Profile" "ProfileParams" "User".

Definition Create : FuncDecl :=
  methodDecl [createDirective] "MyApi" "Create" "CreateParams" "NewUser".

Definition OtherCreate : FuncDecl :=
  methodDecl [emptyDirective] "OtherApi" "Create" "CreateParams" "OtherUser".

(** [func (ae ApiError) Error() string], without a doc comment. *)
Definition ErrorMethod : FuncDecl :=
  {| fd_Doc := None;
     fd_Recv := Some [mkField ["ae"] (Ident "ApiError") None];
     fd_Name := "Error";
     fd_Type := {| Params := []; Results := Some [mkField [] (Ident "string") None] |};
     fd_BodyTypes := [] |}.

(** [func NewMyApi() *MyApi] under an ordinary doc comment. *)
Definition NewMyApi : FuncDecl :=
  {| fd_Doc := Some ["// NewMyApi creates and initializes a new MyApi instance."];
     fd_Recv := None;
     fd_Name := "NewMyApi";
     fd_Type := {| Params := []; Results := Some [mkField [] (StarExpr (Ident "MyApi")) None] |};
     fd_BodyTypes := [] |}.

(** A package-level function under a directive comment:
    [func Ping(ctx context.Context, in ProfileParams) ( *User, error)]. *)
Definition Ping : FuncDecl :=
  {| fd_Doc := Some [emptyDirective];
     fd_Recv := None;
     fd_Name := "Ping";
     fd_Type := {| Params := [ctxParam; mkField ["in"] (Ident "ProfileParams") None];
                   Results := Some [mkField [] (StarExpr (Ident "User")) None; errResult] |};
     fd_BodyTypes := [] |}.

(** An annotated method with a third parameter:
    [func (srv *MyApi) Audit(ctx context.Context, in ProfileParams, dry bool) ( *User, error)]. *)
Definition Audit : FuncDecl :=
  {| fd_Doc := Some [emptyDirective];
     fd_Recv := Some [mkField ["srv"] (StarExpr (Ident "MyApi")) None];
     fd_Name := "Audit";
     fd_Type := {| Params := [ctxParam; mkField ["in"] (Ident "ProfileParams") None;
                              mkField ["dry"] (Ident "bool") None];
                   Results := Some [mkField [] (StarExpr (Ident "User")) None; errResult] |};
     fd_BodyTypes := [] |}.

(** An annotated method that returns its result by value:
    [func (srv *MyApi) Count(ctx context.Context, in ProfileParams) (User, error)]. *)
Definition Count : FuncDecl :=
  {| fd_Doc := Some [emptyDirective];
     fd_Recv := Some [mkField ["srv"] (StarExpr (Ident "MyApi")) None];
     fd_Name := "Count";
     fd_Type := {| Params := [ctxParam; mkField ["in"] (Ident "ProfileParams") None];
                   Results := Some [mkField [] (Ident "User") None; errResult] |};
     fd_BodyTypes := [] |}.

(** [Create] with the broken directive. *)
Definition BrokenCreate : FuncDecl :=
  methodDecl [brokenDirective] "MyApi" "Create" "CreateParams" "NewUser".

Definition fileOf (decls : list Decl) : File :=
  {| f_Name := "example";
     f_Decls := GenDecl [ImportSpec] :: GenDecl [TypeSpecS ProfileParams]
                :: GenDecl [TypeSpecS CreateParams] :: decls |}.

(** [example/api.go]. *)
Definition apiFile : File :=
  fileOf [FuncDeclD ErrorMethod; FuncDeclD NewMyApi; FuncDeclD Profile;
          FuncDeclD Create; FuncDeclD OtherCreate].

(** The same methods with those of [OtherApi] declared first. *)
Definition otherFirstFile : File :=
  fileOf [FuncDeclD OtherCreate; FuncDeclD Profile; FuncDeclD Create].

Definition brokenFile : File := fileOf [FuncDeclD Profile; FuncDeclD BrokenCreate].
Definition pingFile : File := fileOf [FuncDeclD Ping; FuncDeclD Profile].
Definition auditFile : File := fileOf [FuncDeclD Audit].
Definition countFile : File := fileOf [FuncDeclD Profile; FuncDeclD Count].

(** The source texts, named rather than spelled out. *)
Definition sources : list (string * File) :=
  [("<api.go>", apiFile); ("<other_first.go>", otherFirstFile);
   ("<broken.go>", brokenFile); ("<ping.go>", pingFile);
   ("<audit.go>", auditFile); ("<count.go>", countFile)].

Fixpoint assoc {V} (key : string) (table : list (string * V)) : option V :=
  match table with
  | [] => None
  | (k, v) :: rest => if String.eqb k key then Some v else assoc key rest
  end.

Definition parse (mode : ParseMode) (src : string) : outcome File :=
  match assoc src sources with
  | Some f =>
      match mode with
      | ParseComments => Ok f
      | PackageClauseOnly => Ok {| f_Name := f_Name f; f_Decls := [] |}
      end
  | None => Err "expected 'package'"
  end.

Definition noKeys : DirectiveJSON :=
  {| j_url := None; j_auth := None; j_method := None; j_auth_env_key := None |}.

Definition payloads : list (string * DirectiveJSON) :=
  [(payloadOf emptyDirective, noKeys);
   (payloadOf profileDirective,
    {| j_url := Some "/user/profile"; j_auth := Some false;
       j_method := None; j_auth_env_key := None |});
   (payloadOf createDirective,
    {| j_url := Some "/user/create"; j_auth := Some true;
       j_method := Some "POST"; j_auth_env_key := None |})].

Definition decode (data : string) : outcome DirectiveJSON :=
  match assoc data payloads with
  | Some j => Ok j
  | None => Err "invalid character"
  end.

(** A template that writes the package clause and, for each group in the
    order of [templateRange], the receiver type and the names of its
    methods. *)
Definition renderGroup (group : string * list Method) : string :=
  "func (h *" ++ group.1 ++ ") ServeHTTP:"
  ++ String.concat "," (map m_Name group.2) ++ ";".

Definition execute (data : RenderData) : outcome string :=
  Ok ("package " ++ PackageName data ++ ";"
      ++ String.concat EmptyString (map renderGroup (templateRange (Methods data))))%string.

Definition env : Externals :=
  {| go_parse := parse;
     json_object := decode;
     exprText := fun _ => "<expr>";
     handlerTemplate_Execute := execute;
     format_Source := fun buf => Ok buf |}.

(** The same with a formatter that rejects the rendered text. *)
Definition envBadFormat : Externals :=
  {| go_parse := parse;
     json_object := decode;
     exprText := fun _ => "<expr>";
     handlerTemplate_Execute := execute;
     format_Source := fun _ => Err "expected declaration" |}.

(** The same with a template that fails. *)
Definition envBadTemplate : Externals :=
  {| go_parse := parse;
     json_object := decode;
     exprText := fun _ => "<expr>";
     handlerTemplate_Execute := fun _ => Err "template: can't evaluate field";
     format_Source := fun buf => Ok buf |}.

(** A directory with the sample sources and an earlier output. *)
Definition disk : FS :=
  {| contents := list_to_map
       [("api.go", "<api.go>"); ("other_first.go", "<other_first.go>");
        ("broken.go", "<broken.go>"); ("ping.go", "<ping.go>");
        ("audit.go", "<audit.go>"); ("count.go", "<count.go>");
        ("out.go", "package old;")];
     denied := ∅ |}.

(** The methods extracted from a sample file (none when extraction
    fails), and their names. *)
Definition methodsIn (name : string) : list Method :=
  match parseFile env disk name with
  | Ok methods => methods
  | _ => []
  end.

Definition namesIn (name : string) : list string := m_Name <$> methodsIn name.

(** The text [Generate] leaves in [out.go] for a sample file. *)
Definition outputFor (name : string) : option string :=
  readFile (Generate env name "out.go" disk).2 "out.go".

End Sample.

(** ** [cmd/generator]: the entry point *)




(** ** [example/api.go]: the hand-written API the generator is run on

    The methods are modelled one call at a time: the lock each of them
    takes makes a call atomic, and the interleaving of calls is left out.
    The users are held by value; nothing in the file writes through the
    pointers the map stores. *)

Module Example.

Record User := {
  u_ID : Z;
  u_Login : string;
  u_FullName : string;
  u_Status : Z
}.

Record NewUser := { nu_ID : Z }.

Record ProfileParams := { pp_Login : string }.

Record CreateParams := {
  cp_Login : string;
  cp_Name : string;
  cp_Status : string;
  cp_Age : Z
}.

(** The errors the methods return: one made by [fmt.Errorf], or an
    [ApiError] that wraps one with an HTTP status. *)
Inductive apiError : Type :=
  | errorString (msg : string)
  | ApiError (HTTPStatus : Z) (msg : string).

(** [Error]: an [ApiError] answers with the text of the error it wraps. *)
Definition Error (e : apiError) : string :=
  match e with
  | errorString msg => msg
  | ApiError _ msg => msg
  end.

Definition statusUser : Z := 0.
Definition statusModerator : Z := 10.
Definition statusAdmin : Z := 20.

Definition StatusNotFound : Z := 404.
Definition StatusConflict : Z := 409.

(** [MyApi], without its lock; [nextID] is a [uint64]. *)
Record MyApi := {
  statuses : gmap string Z;
  users : gmap string User;
  nextID : Z
}.

(** [NewMyApi]. *)
Definition NewMyApi : MyApi :=
  {| statuses := <["user" := statusUser]>
                   (<["moderator" := statusModerator]>
                      (<["admin" := statusAdmin]> ∅));
     users := <["rvasily" := {| u_ID := 42; u_Login := "rvasily";
                                u_FullName := "Vasily Romanov";
                                u_Status := statusAdmin |}]> ∅;
     nextID := 43 |}.

(** [Profile]. *)
Definition Profile (srv : MyApi) (inp : ProfileParams) : User + apiError :=
  if String.eqb (pp_Login inp) "bad_user" then inr (errorString "bad user")
  else match users srv !! pp_Login inp with
       | Some user => inl user
       | None => inr (ApiError StatusNotFound "user not exist")
       end.

(** [Create]: the result and the state the call leaves.  A status name
    the map [statuses] does not hold reads as 0, and [nextID++] wraps at
    2^64. *)
Definition Create (srv : MyApi) (inp : CreateParams) : (NewUser + apiError) * MyApi :=
  if String.eqb (cp_Login inp) "bad_username" then (inr (errorString "bad user"), srv)
  else match users srv !! cp_Login inp with
       | Some _ =>
           (inr (ApiError StatusConflict ("user " ++ cp_Login inp ++ " exist")), srv)
       | None =>
           let id := nextID srv in
           (inl {| nu_ID := id |},
            {| statuses := statuses srv;
               users := <[cp_Login inp :=
                            {| u_ID := id; u_Login := cp_Login inp;
                               u_FullName := cp_Name inp;
                               u_Status := default 0%Z (statuses srv !! cp_Status inp) |}]>
                          (users srv);
               nextID := ((id + 1) mod 2 ^ 64)%Z |})
       end.

(** What the user identifiers of a state satisfy: [nextID] is a [uint64],
    every stored user is filed under its login and carries an identifier
    below [nextID], and no two logins share an identifier. *)
Definition wellFormed (srv : MyApi) : Prop :=
  (0 ≤ nextID srv < 2 ^ 64)%Z
  ∧ (∀ login user, users srv !! login = Some user →
       u_Login user = login ∧ (0 ≤ u_ID user < nextID srv)%Z)
  ∧ (∀ login1 login2 user1 user2,
       users srv !! login1 = Some user1 → users srv !! login2 = Some user2 →
       u_ID user1 = u_ID user2 → login1 = login2).

End Example.

(** ** More sample inputs *)

Module Sample2.

(** [type SearchParams struct { Login string; Base; First, Last string }],
    with a tag on [Login], an embedded field and a field of two names. *)
Definition SearchParams : TypeSpec :=
  {| ts_Name := "SearchParams";
     ts_Type := StructType
       [mkField ["Login"] (Ident "string") (Sample.tagLit "required");
        mkField [] (Ident "Base") None;
        mkField ["First"; "Last"] (Ident "string") None] |}.

(** A type of the same name declared inside a function body. *)
Definition LocalSearchParams : TypeSpec :=
  {| ts_Name := "SearchParams";
     ts_Type := StructType [mkField ["Shadow"] (Ident "int") None] |}.

(** A method under a doc comment of three lines: an ordinary one, a
    directive, and a second directive that does not decode; its body
    declares the local type. *)
Definition Search : FuncDecl :=
  {| fd_Doc := Some ["// Search looks users up."; Sample.emptyDirective;
                     Sample.brokenDirective];
     fd_Recv := Some [mkField ["srv"] (StarExpr (Ident "MyApi")) None];
     fd_Name := "Search";
     fd_Type := {| Params := [Sample.ctxParam; mkField ["in"] (Ident "SearchParams") None];
                   Results := Some [mkField [] (StarExpr (Ident "User")) None;
                                    Sample.errResult] |};
     fd_BodyTypes := [LocalSearchParams] |}.

Definition searchFile : File :=
  {| f_Name := "example";
     f_Decls := [GenDecl [ImportSpec]; GenDecl [TypeSpecS SearchParams];
                 FuncDeclD Search] |}.

(** A file without any directive. *)
Definition plainFile : File :=
  {| f_Name := "example";
     f_Decls := [GenDecl [TypeSpecS Sample.ProfileParams];
                 FuncDeclD Sample.ErrorMethod; FuncDeclD Sample.NewMyApi] |}.

Definition sources : list (string * File) :=
  [("<search.go>", searchFile); ("<plain.go>", plainFile)].

Definition parse (mode : ParseMode) (src : string) : outcome File :=
  match Sample.assoc src sources with
  | Some f =>
      match mode with
      | ParseComments => Ok f
      | PackageClauseOnly => Ok {| f_Name := f_Name f; f_Decls := [] |}
      end
  | None => Sample.parse mode src
  end.

Definition env : Externals :=
  {| go_parse := parse;
     json_object := Sample.decode;
     exprText := fun _ => "<expr>";
     handlerTemplate_Execute := Sample.execute;
     format_Source := fun buf => Ok buf |}.

(** The sample directory with the two further sources, and with a path
    that cannot be written. *)
Definition disk : FS :=
  {| contents := <["search.go" := "<search.go>"]>
                   (<["plain.go" := "<plain.go>"]> (contents Sample.disk));
     denied := {["locked.go"]} |}.

End Sample2.

(** ** Notions the further properties are stated with *)

(** The keys the [switch] of [parseApiValidatorTag] has a case for. *)
Definition knownKeys : list string :=
  ["required"; "paramname"; "enum"; "default"; "min"; "max"].

(** The values of Go's [int]. *)
Definition inIntRange (v : Z) : Prop :=
  (- 2 ^ (GoFmt.intBits - 1) ≤ v ≤ 2 ^ (GoFmt.intBits - 1) - 1)%Z.

Fixpoint allDigits (s : string) : bool :=
  match s with
  | EmptyString => true
  | String c s' => GoFmt.isDigit c && allDigits s'
  end.

(** A space or a tab. *)
Definition isBlank (c : ascii) : bool :=
  Ascii.eqb c " " || Ascii.eqb c (ascii_of_nat 9).

Fixpoint allBlank (s : string) : bool :=
  match s with
  | EmptyString => true
  | String c s' => isBlank c && allBlank s'
  end.

(** The literal of a struct tag as the Go source spells it: the tag text
    between double quotes after the key, the whole between back quotes. *)
Definition rawTag (text : string) : string :=
  "`apivalidator:" ++ dquote ++ text ++ dquote ++ "`".

(** The fields of every struct type declared under a name, in the order
    [ast.Inspect] meets the declarations. *)
Definition declaredFields (structName : string) (node : File) : list Field :=
  concat (map (fun typeSpec =>
                 if String.eqb (ts_Name typeSpec) structName then
                   match ts_Type typeSpec with
                   | StructType fields => fields
                   | _ => []
                   end
                 else [])
            (InspectTypeSpecs node)).

(** The methods of all groups of a render context, group after group. *)
Definition allGrouped (groupedMethods : gmap string (list Method)) : list Method :=
  concat (templateRange groupedMethods).*2.

(** * Properties *)

(** ** The library models on known inputs *)

Example Split_keeps_empty_pieces : GoStrings.Split "a,,b," "," = ["a"; ""; "b"; ""].
Proof. reflexivity. Qed.

Example SplitN_cuts_once : GoStrings.SplitN "a=b=c" "=" 2 = ["a"; "b=c"].
Proof. reflexivity. Qed.

Example SplitN_without_separator : GoStrings.SplitN "required" "=" 2 = ["required"].
Proof. reflexivity. Qed.

Example Trim_both_ends : GoStrings.Trim "``ab`c``" "`" = "ab`c".
Proof. reflexivity. Qed.

Example Sscanf_leading_space_and_sign : GoFmt.Sscanf_d "  -12x" = ((-12)%Z, None).
Proof. reflexivity. Qed.

Example Sscanf_no_digit : GoFmt.Sscanf_d "abc" = (0%Z, Some "expected integer").
Proof. reflexivity. Qed.

Example Sscanf_empty : GoFmt.Sscanf_d "" = (0%Z, Some "EOF").
Proof. reflexivity. Qed.

Example Sscanf_overflow :
  GoFmt.Sscanf_d "9223372036854775808" = (0%Z, Some "value out of range").
Proof. reflexivity. Qed.

(** Every decoded rune consumes at least one byte, so the length of the
    input is fuel enough for [SkipSpace]: more fuel changes nothing. *)
Lemma decodeRune_shorter (s rest : string) (r : Z) :
  GoFmt.decodeRune s = Some (r, rest) → (String.length rest < String.length s)%nat.
Proof.
  unfold GoFmt.decodeRune.
  destruct s as [| c0 [| c1 [| c2 [| c3 s]]]]; simpl;
    repeat case_match; intros [= <- <-]; simpl; lia.
Qed.

Lemma SkipSpace_fuel (n m : nat) (s : string) :
  (String.length s ≤ n)%nat → (String.length s ≤ m)%nat →
  GoFmt.SkipSpace n s = GoFmt.SkipSpace m s.
Proof.
  revert m s. induction n as [| n IH]; intros m s Hn Hm.
  - destruct s; [| simpl in Hn; lia]. by destruct m.
  - destruct m as [| m].
    + destruct s; [reflexivity | simpl in Hm; lia].
    + simpl. destruct (GoFmt.decodeRune s) as [[r rest] |] eqn:Hd; [| reflexivity].
      apply decodeRune_shorter in Hd.
      repeat case_match; try reflexivity. apply IH; lia.
Qed.

(** ** The tag grammar *)

Ltac case_key :=
  repeat match goal with
    | |- context [String.eqb ?k ?lit] =>
        is_var k; destruct (String.eqb_spec k lit) as [-> | ?]; simpl
    end.

Lemma applyClause_Required (r : ApiValidatorTag) (part : string) :
  Required (applyClause r part)
  = Required r || String.eqb (clauseKey part) "required".
Proof.
  unfold applyClause. generalize (clauseKey part) as key. intros key.
  case_key; try (destruct (strToInt _) as [v [e|]]; simpl);
    rewrite ?orb_true_r, ?orb_false_r; reflexivity.
Qed.

Lemma applyClause_Min (r : ApiValidatorTag) (part : string) :
  Min (applyClause r part)
  = if String.eqb (clauseKey part) "min"
    then match strToInt (clauseValue part) with
         | (v, None) => Some v
         | (_, Some _) => Min r
         end
    else Min r.
Proof.
  unfold applyClause. generalize (clauseKey part) as key. intros key.
  case_key; try (destruct (strToInt _) as [v [e|]]; simpl); reflexivity.
Qed.

Lemma applyClause_Max (r : ApiValidatorTag) (part : string) :
  Max (applyClause r part)
  = if String.eqb (clauseKey part) "max"
    then match strToInt (clauseValue part) with
         | (v, None) => Some v
         | (_, Some _) => Max r
         end
    else Max r.
Proof.
  unfold applyClause. generalize (clauseKey part) as key. intros key.
  case_key; try (destruct (strToInt _) as [v [e|]]; simpl); reflexivity.
Qed.

(** A [min] or [max] clause whose value does not scan leaves the rule as
    it was. *)
Lemma applyClause_unparsable (r : ApiValidatorTag) (part : string) :
  clauseKey part = "min" ∨ clauseKey part = "max" →
  (strToInt (clauseValue part)).2 ≠ None →
  applyClause r part = r.
Proof.
  intros Hkey Herr. unfold applyClause.
  destruct Hkey as [-> | ->]; simpl;
    destruct (strToInt (clauseValue part)) as [v [e|]]; simpl in *; congruence.
Qed.

Lemma fold_Required (parts : list string) (r : ApiValidatorTag) :
  Required (fold_left applyClause parts r)
  = Required r || existsb (fun part => String.eqb (clauseKey part) "required") parts.
Proof.
  revert r. induction parts as [| part parts IH]; intros r; simpl.
  - by rewrite orb_false_r.
  - rewrite IH, applyClause_Required. by rewrite orb_assoc.
Qed.

Lemma fold_Min_None (parts : list string) (r : ApiValidatorTag) :
  Min r = None →
  (∀ part, part ∈ parts → clauseKey part = "min" →
           (strToInt (clauseValue part)).2 ≠ None) →
  Min (fold_left applyClause parts r) = None.
Proof.
  revert r. induction parts as [| part parts IH]; intros r Hr Hall; simpl.
  - exact Hr.
  - apply IH.
    + rewrite applyClause_Min.
      destruct (String.eqb_spec (clauseKey part) "min") as [Hk | _]; [| exact Hr].
      specialize (Hall part (list_elem_of_here _ _) Hk).
      destruct (strToInt (clauseValue part)) as [v [e|]]; simpl in *; congruence.
    + intros p Hp. apply Hall. by apply list_elem_of_further.
Qed.

Lemma fold_Max_None (parts : list string) (r : ApiValidatorTag) :
  Max r = None →
  (∀ part, part ∈ parts → clauseKey part = "max" →
           (strToInt (clauseValue part)).2 ≠ None) →
  Max (fold_left applyClause parts r) = None.
Proof.
  revert r. induction parts as [| part parts IH]; intros r Hr Hall; simpl.
  - exact Hr.
  - apply IH.
    + rewrite applyClause_Max.
      destruct (String.eqb_spec (clauseKey part) "max") as [Hk | _]; [| exact Hr].
      specialize (Hall part (list_elem_of_here _ _) Hk).
      destruct (strToInt (clauseValue part)) as [v [e|]]; simpl in *; congruence.
    + intros p Hp. apply Hall. by apply list_elem_of_further.
Qed.

(** C3, as stated, fails: in the tag [min=3,min=abc] the second clause has
    a value that does not scan as an integer, and the rule still carries
    the bound 3 set by the first clause. *)
Lemma C3_counterexample :
  "min=abc" ∈ tagClauses "min=3,min=abc"
  ∧ clauseKey "min=abc" = "min"
  ∧ strToInt (clauseValue "min=abc") = (0%Z, Some "expected integer")
  ∧ Min (parseApiValidatorTag (Some {| Value := "min=3,min=abc" |})) = Some 3%Z.
Proof.
  repeat split; try reflexivity.
  vm_compute. apply list_elem_of_further, list_elem_of_here.
Qed.

(** C3, amended: a [min] (or [max]) clause whose value fails to parse as
    an integer raises no error and leaves the rule as it was before the
    clause; when every [min] (or [max]) clause of the tag has such a value,
    the bound of the resulting rule is unset.  The tag [min=abc] yields
    [Min = None], written bare or as the literal of a struct tag. *)
Theorem C3_unparsable_bound_left_unset (lit : BasicLit) :
  (∀ r part,
      clauseKey part = "min" ∨ clauseKey part = "max" →
      (strToInt (clauseValue part)).2 ≠ None →
      applyClause r part = r)
  ∧ ((∀ part, part ∈ tagClauses (Value lit) → clauseKey part = "min" →
              (strToInt (clauseValue part)).2 ≠ None) →
     Min (parseApiValidatorTag (Some lit)) = None)
  ∧ ((∀ part, part ∈ tagClauses (Value lit) → clauseKey part = "max" →
              (strToInt (clauseValue part)).2 ≠ None) →
     Max (parseApiValidatorTag (Some lit)) = None)
  ∧ Min (parseApiValidatorTag (Some {| Value := "min=abc" |})) = None
  ∧ Min (parseApiValidatorTag (Sample.tagLit "min=abc")) = None.
Proof.
  split; [| split; [| split; [| split]]].
  - intros r part. apply applyClause_unparsable.
  - intros H. simpl. by apply fold_Min_None.
  - intros H. simpl. by apply fold_Max_None.
  - reflexivity.
  - reflexivity.
Qed.

(** The amended C3 at the tag [required,min=abc,max=x10,max=]: both bounds
    stay unset, and the clause [min=abc] changes nothing. *)
Lemma C3_witness :
  let lit := {| Value := "required,min=abc,max=x10,max=" |} in
  Min (parseApiValidatorTag (Some lit)) = None
  ∧ Max (parseApiValidatorTag (Some lit)) = None
  ∧ applyClause zeroTag "min=abc" = zeroTag.
Proof.
  intros lit.
  destruct (C3_unparsable_bound_left_unset lit) as (Hstep & Hmin & Hmax & _).
  assert (Hparts : ∀ part, part ∈ tagClauses (Value lit) →
            (clauseKey part = "min" ∨ clauseKey part = "max") →
            (strToInt (clauseValue part)).2 ≠ None).
  { intros part Hin Hk. vm_compute in Hin.
    repeat (apply elem_of_cons in Hin as [-> | Hin]);
      [ .. | by apply elem_of_nil in Hin ];
      try (vm_compute; discriminate);
      destruct Hk as [Hk | Hk]; vm_compute in Hk; discriminate. }
  split; [| split].
  - apply Hmin. intros part Hin Hk. apply Hparts; auto.
  - apply Hmax. intros part Hin Hk. apply Hparts; auto.
  - apply Hstep; [left; reflexivity | vm_compute; discriminate].
Defined.

(** C10: any clause whose key is [required] sets [Required], whatever
    value is attached to it; the tag [required=false] yields
    [Required = true]. *)
Theorem C10_required_ignores_value (lit : BasicLit) (part : string) :
  part ∈ tagClauses (Value lit) →
  clauseKey part = "required" →
  Required (parseApiValidatorTag (Some lit)) = true
  ∧ (∀ r, Required (applyClause r part) = true).
Proof.
  intros Hin Hkey. split.
  - simpl. rewrite fold_Required. simpl.
    apply existsb_exists. exists part. split.
    + by apply list_elem_of_In.
    + rewrite Hkey. reflexivity.
  - intros r. rewrite applyClause_Required, Hkey. apply orb_true_r.
Qed.

(** C10 at the tag [min=3,required=false]. *)
Lemma C10_witness :
  clauseValue "required=false" = "false"
  ∧ Required (parseApiValidatorTag (Sample.tagLit "min=3,required=false")) = true
  ∧ Required (applyClause zeroTag "required=false") = true.
Proof.
  split; [reflexivity |].
  destruct (C10_required_ignores_value
              {| Value := "`apivalidator:" ++ Sample.jstr "min=3,required=false" ++ "`" |}
              "required=false") as [Htag Hstep].
  - vm_compute. apply list_elem_of_further, list_elem_of_here.
  - reflexivity.
  - split; [exact Htag | apply Hstep].
Defined.

(** ** The extraction loop *)

Ltac unfold_bind := unfold mbind, outcome_bind in *.

(** Membership in a list that is written out. *)
Ltac list_member :=
  repeat first [apply list_elem_of_here | apply list_elem_of_further].

Section Extraction.

Variable E : Externals.
Variable fs : FS.
Variable filename : string.

Lemma scanDoc_find (funcDecl : FuncDecl) (comments : list string) (methods : list Method) :
  scanDoc E fs funcDecl comments filename methods
  = match find (fun c => GoStrings.HasPrefix c directivePrefix) comments with
    | Some comment =>
        method ← parseMethod E fs funcDecl comment filename;
        Ok (methods ++ [method])
    | None => Ok methods
    end.
Proof.
  induction comments as [| c cs IH]; simpl; [reflexivity |].
  destruct (GoStrings.HasPrefix c directivePrefix); [reflexivity | exact IH].
Qed.

Lemma scanDecls_cons (decl : Decl) (rest : list Decl) (methods : list Method) :
  scanDecls E fs (decl :: rest) filename methods
  = (methods' ← stepDecl E fs filename methods decl;
     scanDecls E fs rest filename methods').
Proof.
  unfold stepDecl, annotatedOf, directiveOf. simpl.
  destruct decl as [funcDecl | specs |]; try reflexivity.
  destruct (fd_Doc funcDecl) as [comments |]; [| reflexivity].
  rewrite scanDoc_find.
  destruct (find _ comments); reflexivity.
Qed.

Lemma scanDecls_app (pre post : list Decl) (methods : list Method) :
  scanDecls E fs (pre ++ post) filename methods
  = (methods' ← scanDecls E fs pre filename methods;
     scanDecls E fs post filename methods').
Proof.
  revert methods. induction pre as [| d pre IH]; intros methods; [reflexivity |].
  rewrite <- app_comm_cons, !scanDecls_cons.
  destruct (stepDecl E fs filename methods d) as [ms | e | p]; simpl;
    [apply IH | reflexivity | reflexivity].
Qed.

(** The method list [parseFile] returns: one method per annotated
    declaration, in source order, appended to the list so far. *)
Lemma scanDecls_Ok (decls : list Decl) (methods methods' : list Method) :
  scanDecls E fs decls filename methods = Ok methods' ↔
  ∃ new, methods' = methods ++ new
         ∧ Forall2 (fun a m => parseMethod E fs a.1 a.2 filename = Ok m)
             (annotated decls) new.
Proof.
  revert methods. induction decls as [| d decls IH]; intros methods.
  - simpl. split.
    + intros [= <-]. exists []. split; [by rewrite app_nil_r | constructor].
    + intros (new & -> & Hnew). inversion Hnew. by rewrite app_nil_r.
  - rewrite scanDecls_cons. unfold annotated, stepDecl. simpl.
    destruct (annotatedOf d) as [[funcDecl comment] |]; simpl.
    + destruct (parseMethod E fs funcDecl comment filename) as [m | e | p] eqn:Hm;
        simpl.
      * rewrite IH. split.
        -- intros (new & -> & Hnew). exists (m :: new). split.
           ++ by rewrite <- app_assoc.
           ++ by constructor.
        -- intros (new & -> & Hnew). inversion Hnew as [| ? m' ? new' Hm' Hrest]; subst.
           simpl in Hm'. rewrite Hm in Hm'. injection Hm' as <-.
           exists new'. split; [by rewrite <- app_assoc | done].
      * split; [discriminate |].
        intros (new & _ & Hnew). inversion Hnew as [| ? m' ? new' Hm' Hrest]; subst.
        simpl in Hm'. congruence.
      * split; [discriminate |].
        intros (new & _ & Hnew). inversion Hnew as [| ? m' ? new' Hm' Hrest]; subst.
        simpl in Hm'. congruence.
    + apply IH.
Qed.

Lemma elem_of_annotated (decls : list Decl) (funcDecl : FuncDecl) (comment : string) :
  FuncDeclD funcDecl ∈ decls → directiveOf funcDecl = Some comment →
  (funcDecl, comment) ∈ annotated decls.
Proof.
  intros Hin Hdir. unfold annotated. apply list_elem_of_omap.
  exists (FuncDeclD funcDecl). split; [done |]. simpl. by rewrite Hdir.
Qed.

(** One annotated declaration that [parseMethod] fails on is enough for
    the loop not to return a list. *)
Lemma scanDecls_fails (decls : list Decl) (funcDecl : FuncDecl) (comment : string)
    (methods : list Method) :
  FuncDeclD funcDecl ∈ decls → directiveOf funcDecl = Some comment →
  isOk (parseMethod E fs funcDecl comment filename) = false →
  isOk (scanDecls E fs decls filename methods) = false.
Proof.
  intros Hin Hdir Hfail.
  destruct (scanDecls E fs decls filename methods) as [ms | e | p] eqn:Hscan;
    [| reflexivity | reflexivity].
  apply scanDecls_Ok in Hscan as (new & _ & Hnew).
  pose proof (elem_of_annotated _ _ _ Hin Hdir) as Ha.
  apply list_elem_of_lookup_1 in Ha as [i Hi].
  destruct (Forall2_lookup_l _ _ _ _ _ Hnew Hi) as (m & _ & Hm).
  simpl in Hm. rewrite Hm in Hfail. discriminate.
Qed.


End Extraction.

(** ** [parseMethod] and the aborts of [Generate] *)

Lemma readSignature_readable (funcDecl : FuncDecl) :
  isOk (readSignature funcDecl) = readableShape funcDecl.
Proof.
  unfold readSignature, readableShape.
  destruct (fd_Recv funcDecl) as [[| [[| n ns] [] tag] recv] |]; simpl; try reflexivity.
  destruct X; simpl; try reflexivity.
  destruct (Params (fd_Type funcDecl)) as [| p0 [| [ns1 [] tag1] ps]]; simpl;
    try reflexivity.
  destruct (Results (fd_Type funcDecl)) as [[| [ns2 [] tag2] rs] |]; simpl;
    try reflexivity.
  destruct X; reflexivity.
Qed.

(** The positional reads never return an error value: they go through or
    they panic. *)
Lemma readSignature_panics (funcDecl : FuncDecl) :
  readableShape funcDecl = false → ∃ p, readSignature funcDecl = Panic p.
Proof.
  rewrite <- readSignature_readable. unfold readSignature.
  destruct (fd_Recv funcDecl) as [[| [[| n ns] [] tag] recv] |]; simpl; eauto.
  destruct X; simpl; eauto.
  destruct (Params (fd_Type funcDecl)) as [| p0 [| [ns1 [] tag1] ps]]; simpl; eauto.
  destruct (Results (fd_Type funcDecl)) as [[| [ns2 [] tag2] rs] |]; simpl; eauto.
  destruct X; simpl; eauto. discriminate.
Qed.

Lemma readSignature_Name (funcDecl : FuncDecl) (m : Method) :
  readSignature funcDecl = Ok m → m_Name m = fd_Name funcDecl.
Proof.
  unfold readSignature. unfold_bind. intros Hs.
  repeat match type of Hs with
    | context [match ?x with _ => _ end] => destruct x eqn:?; try discriminate Hs
    end.
  injection Hs as <-. reflexivity.
Qed.

Section Aborts.

Variable E : Externals.
Variable fs : FS.

Lemma parseMethod_unreadable (funcDecl : FuncDecl) (comment filename : string) :
  readableShape funcDecl = false →
  ∃ p, readSignature funcDecl = Panic p
       ∧ parseMethod E fs funcDecl comment filename = Panic p.
Proof.
  intros H. destruct (readSignature_panics _ H) as [p Hp]. exists p.
  split; [exact Hp |]. unfold parseMethod. by rewrite Hp.
Qed.


Lemma Generate_parse_abort (inputFile outputFile : string) :
  isOk (parseFile E fs inputFile) = false →
  Generate E inputFile outputFile fs
  = (abort_of (parseFile E fs inputFile) (Ok tt), fs).
Proof.
  unfold Generate. destruct (parseFile E fs inputFile); simpl; congruence.
Qed.

Lemma parseFile_fails (inputFile : string) (node : File) (funcDecl : FuncDecl)
    (comment : string) :
  ParseFile E fs inputFile ParseComments = Ok node →
  FuncDeclD funcDecl ∈ f_Decls node →
  directiveOf funcDecl = Some comment →
  isOk (parseMethod E fs funcDecl comment inputFile) = false →
  isOk (parseFile E fs inputFile) = false.
Proof.
  intros Hnode Hin Hdir Hfail. unfold parseFile. rewrite Hnode. simpl.
  eapply scanDecls_fails; eauto.
Qed.

End Aborts.



(** C2: [Generate] changes the file system only by the one write of the
    formatted code, after parsing, template execution and formatting have
    all succeeded; when template execution or formatting fails, [Generate]
    ends with that failure and the file system is as it was. *)
Theorem C2_write_only_after_format (E : Externals) (fs : FS)
    (inputFile outputFile : string) :
  ((Generate E inputFile outputFile fs).2 ≠ fs →
   ∃ methods packageName buf code,
     parseFile E fs inputFile = Ok methods
     ∧ getPackageName E fs inputFile = Ok packageName
     ∧ handlerTemplate_Execute E
         {| PackageName := packageName; Methods := groupMethods methods |} = Ok buf
     ∧ format_Source E buf = Ok code
     ∧ Generate E inputFile outputFile fs
       = (Ok tt, {| contents := <[outputFile := code]> (contents fs);
                    denied := denied fs |}))
  ∧ (∀ methods packageName,
       parseFile E fs inputFile = Ok methods →
       getPackageName E fs inputFile = Ok packageName →
       let rendered :=
         handlerTemplate_Execute E
           {| PackageName := packageName; Methods := groupMethods methods |} in
       (isOk rendered = false →
        Generate E inputFile outputFile fs = (abort_of rendered (Ok tt), fs))
       ∧ (∀ buf, rendered = Ok buf →
                 isOk (format_Source E buf) = false →
                 Generate E inputFile outputFile fs
                 = (abort_of (format_Source E buf) (Ok tt), fs))).
Proof.
  split.
  - unfold Generate.
    destruct (parseFile E fs inputFile) as [methods | |]; simpl; try congruence.
    destruct (getPackageName E fs inputFile) as [packageName | |]; simpl;
      try congruence.
    destruct (handlerTemplate_Execute E _) as [buf | |] eqn:Hbuf; simpl;
      try congruence.
    destruct (format_Source E buf) as [code | |] eqn:Hcode; simpl; try congruence.
    unfold os_WriteFile. case_decide; simpl; [congruence |].
    intros _. exists methods, packageName, buf, code. by rewrite Hbuf.
  - intros methods packageName Hparse Hpkg rendered. subst rendered.
    unfold Generate. rewrite Hparse, Hpkg. simpl. split.
    + destruct (handlerTemplate_Execute E _); simpl; congruence.
    + intros buf -> Hfmt. simpl.
      destruct (format_Source E buf); simpl in *; congruence.
Qed.

(** C2 on [api.go]: with a formatter that rejects the text, and with a
    template that fails, [out.go] keeps its earlier content; with both
    succeeding, the change of the file system is the write of the
    formatted code. *)
Lemma C2_witness :
  Generate Sample.envBadFormat "api.go" "out.go" Sample.disk
  = (Err "expected declaration", Sample.disk)
  ∧ Generate Sample.envBadTemplate "api.go" "out.go" Sample.disk
    = (Err "template: can't evaluate field", Sample.disk)
  ∧ ∃ code, (Generate Sample.env "api.go" "out.go" Sample.disk).2
            = {| contents := <["out.go" := code]> (contents Sample.disk);
                 denied := denied Sample.disk |}.
Proof.
  split; [| split].
  - edestruct (C2_write_only_after_format Sample.envBadFormat Sample.disk
                 "api.go" "out.go") as [_ H].
    edestruct H as [_ Hfmt]; [vm_compute; reflexivity | reflexivity |].
    erewrite Hfmt; [reflexivity | reflexivity | reflexivity].
  - edestruct (C2_write_only_after_format Sample.envBadTemplate Sample.disk
                 "api.go" "out.go") as [_ H].
    edestruct H as [Htpl _]; [vm_compute; reflexivity | reflexivity |].
    rewrite Htpl; reflexivity.
  - edestruct (C2_write_only_after_format Sample.env Sample.disk
                 "api.go" "out.go") as [H _].
    destruct H as (methods & packageName & buf & code & _ & _ & _ & _ & Hgen).
    + intros Heq. apply (f_equal (fun s => readFile s "out.go")) in Heq.
      vm_compute in Heq. discriminate.
    + exists code. by rewrite Hgen.
Defined.

(** C4, as stated, fails: [ping.go] declares the package-level function
    [Ping] under a directive comment; [parseMethod] is called on it, the
    read of its receiver is a nil dereference, and the run ends there
    instead of going on to [Profile]. *)
Lemma C4_counterexample :
  fd_Recv Sample.Ping = None
  ∧ directiveOf Sample.Ping = Some Sample.emptyDirective
  ∧ FuncDeclD Sample.Ping ∈ f_Decls Sample.pingFile
  ∧ ParseFile Sample.env Sample.disk "ping.go" ParseComments = Ok Sample.pingFile
  ∧ parseFile Sample.env Sample.disk "ping.go"
    = Panic "invalid memory address or nil pointer dereference"
  ∧ Generate Sample.env "ping.go" "out.go" Sample.disk
    = (Panic "invalid memory address or nil pointer dereference", Sample.disk).
Proof.
  repeat split; try reflexivity.
  unfold Sample.pingFile, Sample.fileOf. simpl. list_member.
Qed.

(** C4, amended: a package-level function is skipped, adding no method
    and causing no failure, when its doc comment has no directive line;
    when it has one, [parseMethod] is called on it and panics on the read
    of the receiver, so that [parseFile] returns no list, [Generate] does
    not succeed and the file system is as it was. *)
Theorem C4_package_level_function (E : Externals) (fs : FS) (filename : string)
    (funcDecl : FuncDecl) :
  fd_Recv funcDecl = None →
  (directiveOf funcDecl = None →
   ∀ pre post methods,
     scanDecls E fs (pre ++ FuncDeclD funcDecl :: post) filename methods
     = scanDecls E fs (pre ++ post) filename methods)
  ∧ (∀ comment,
       directiveOf funcDecl = Some comment →
       parseMethod E fs funcDecl comment filename
       = Panic "invalid memory address or nil pointer dereference"
       ∧ ∀ node outputFile,
           ParseFile E fs filename ParseComments = Ok node →
           FuncDeclD funcDecl ∈ f_Decls node →
           isOk (parseFile E fs filename) = false
           ∧ isOk (Generate E filename outputFile fs).1 = false
           ∧ (Generate E filename outputFile fs).2 = fs).
Proof.
  intros Hrecv. split.
  - intros Hdir pre post methods.
    rewrite !scanDecls_app.
    destruct (scanDecls E fs pre filename methods) as [ms | |]; unfold_bind;
      try reflexivity.
    rewrite scanDecls_cons. unfold stepDecl. simpl. by rewrite Hdir.
  - intros comment Hdir.
    assert (Hpm : parseMethod E fs funcDecl comment filename
                  = Panic "invalid memory address or nil pointer dereference").
    { unfold parseMethod, readSignature. by rewrite Hrecv. }
    split; [exact Hpm |].
    intros node outputFile Hnode Hin.
    assert (Hpf : isOk (parseFile E fs filename) = false).
    { eapply parseFile_fails; eauto. by rewrite Hpm. }
    rewrite (Generate_parse_abort E fs filename outputFile Hpf). simpl.
    repeat split; [exact Hpf |].
    destruct (parseFile E fs filename); simpl in *; congruence.
Qed.

(** The amended C4 on [api.go] and [ping.go]: [NewMyApi], which has an
    ordinary doc comment, is skipped; [Ping], which has a directive line,
    stops the run. *)
Lemma C4_witness :
  scanDecls Sample.env Sample.disk
    ([FuncDeclD Sample.ErrorMethod] ++ FuncDeclD Sample.NewMyApi
       :: [FuncDeclD Sample.Profile]) "api.go" []
  = scanDecls Sample.env Sample.disk
      ([FuncDeclD Sample.ErrorMethod] ++ [FuncDeclD Sample.Profile]) "api.go" []
  ∧ isOk (parseFile Sample.env Sample.disk "ping.go") = false
  ∧ (Generate Sample.env "ping.go" "out.go" Sample.disk).2 = Sample.disk.
Proof.
  split.
  - apply (C4_package_level_function Sample.env Sample.disk "api.go" Sample.NewMyApi);
      reflexivity.
  - destruct (C4_package_level_function Sample.env Sample.disk "ping.go" Sample.Ping
                eq_refl) as [_ H].
    destruct (H Sample.emptyDirective eq_refl) as [_ Hrun].
    destruct (Hrun Sample.pingFile "out.go") as (Hp & _ & Hfs).
    + reflexivity.
    + unfold Sample.pingFile, Sample.fileOf. simpl. list_member.
    + split; [exact Hp | exact Hfs].
Defined.

(** C5, as stated, fails: [audit.go] declares an annotated method with
    three parameters; it does not have the shape of the specification, it
    is extracted all the same, and [out.go] is written. *)
Lemma C5_counterexample :
  directiveOf Sample.Audit = Some Sample.emptyDirective
  ∧ hasSpecShape Sample.Audit = false
  ∧ length (Params (fd_Type Sample.Audit)) = 3
  ∧ parseFile Sample.env Sample.disk "audit.go" = Ok (Sample.methodsIn "audit.go")
  ∧ Sample.namesIn "audit.go" = ["Audit"]
  ∧ (Generate Sample.env "audit.go" "out.go" Sample.disk).1 = Ok tt
  ∧ Sample.outputFor "audit.go"
    = Some "package example;func (h *MyApi) ServeHTTP:Audit;".
Proof. repeat split; vm_compute; reflexivity. Qed.

(** C5, amended: an annotated method on which a positional read of
    [parseMethod] fails (no receiver or an unnamed one, a receiver type or a
    first result type that is not a pointer to a named type, fewer than two
    parameter fields, a second parameter type that is not a plain
    identifier, no result) makes [parseMethod] panic: [parseFile] returns no
    list, [Generate] does not succeed and no file is written.  Nothing else
    of the signature is read: on any other annotated method whose directive
    decodes, [parseMethod] returns the method. *)
Theorem C5_unreadable_signature_aborts (E : Externals) (fs : FS)
    (inputFile outputFile : string) (node : File) (funcDecl : FuncDecl)
    (comment : string) :
  ParseFile E fs inputFile ParseComments = Ok node →
  FuncDeclD funcDecl ∈ f_Decls node →
  directiveOf funcDecl = Some comment →
  (readableShape funcDecl = false →
   (∃ p, parseMethod E fs funcDecl comment inputFile = Panic p)
   ∧ isOk (parseFile E fs inputFile) = false
   ∧ isOk (Generate E inputFile outputFile fs).1 = false
   ∧ (Generate E inputFile outputFile fs).2 = fs)
  ∧ (readableShape funcDecl = true →
     ∀ j, json_object E (payloadOf comment) = Ok j →
          ∃ m, parseMethod E fs funcDecl comment inputFile = Ok m
               ∧ m_Name m = fd_Name funcDecl).
Proof.
  intros Hnode Hin Hdir. split.
  - intros Hshape.
    destruct (parseMethod_unreadable E fs funcDecl comment inputFile Hshape)
      as (p & _ & Hpm).
    assert (Hpf : isOk (parseFile E fs inputFile) = false).
    { eapply parseFile_fails; eauto. by rewrite Hpm. }
    rewrite (Generate_parse_abort E fs inputFile outputFile Hpf). simpl.
    repeat split; eauto.
    destruct (parseFile E fs inputFile); simpl in *; congruence.
  - intros Hshape j Hj. rewrite <- readSignature_readable in Hshape.
    unfold parseMethod, json_Unmarshal, parseStructFields.
    fold (payloadOf comment). rewrite Hj, Hnode.
    destruct (readSignature funcDecl) as [m0 | |] eqn:Hs; try discriminate.
    simpl. eexists. split; [reflexivity |]. simpl.
    by apply readSignature_Name.
Qed.

(** The amended C5 at [count.go], whose method [Count] returns its result
    by value, and at [audit.go], whose method [Audit] has a third
    parameter. *)
Lemma C5_witness :
  (isOk (parseFile Sample.env Sample.disk "count.go") = false
   ∧ isOk (Generate Sample.env "count.go" "out.go" Sample.disk).1 = false
   ∧ (Generate Sample.env "count.go" "out.go" Sample.disk).2 = Sample.disk)
  ∧ ∃ m, parseMethod Sample.env Sample.disk Sample.Audit Sample.emptyDirective
           "audit.go" = Ok m
         ∧ m_Name m = "Audit".
Proof.
  split.
  - destruct (C5_unreadable_signature_aborts Sample.env Sample.disk "count.go"
                "out.go" Sample.countFile Sample.Count Sample.emptyDirective)
      as [Habort _].
    + reflexivity.
    + unfold Sample.countFile, Sample.fileOf. simpl. list_member.
    + reflexivity.
    + destruct (Habort eq_refl) as (_ & Hp & Hg & Hfs).
      split; [exact Hp | split; [exact Hg | exact Hfs]].
  - destruct (C5_unreadable_signature_aborts Sample.env Sample.disk "audit.go"
                "out.go" Sample.auditFile Sample.Audit Sample.emptyDirective)
      as [_ Hread].
    + reflexivity.
    + unfold Sample.auditFile, Sample.fileOf. simpl. list_member.
    + reflexivity.
    + apply (Hread eq_refl Sample.noKeys). reflexivity.
Defined.

(** ** Default-filling *)











(** ** Grouping *)

Lemma addMethod_lookup (g : gmap string (list Method)) (m : Method) (rt : string) :
  addMethod g m !! rt
  = if decide (m_ReceiverType m = rt)
    then Some (default [] (g !! rt) ++ [m])
    else g !! rt.
Proof.
  unfold addMethod. case_decide as Hrt.
  - subst rt. by rewrite lookup_insert_eq.
  - by rewrite lookup_insert_ne.
Qed.

Lemma fold_addMethod_lookup (methods : list Method) (g : gmap string (list Method))
    (rt : string) :
  fold_left addMethod methods g !! rt
  = match methodsOf rt methods with
    | [] => g !! rt
    | group => Some (default [] (g !! rt) ++ group)
    end.
Proof.
  revert g. induction methods as [| m methods IH]; intros g; [reflexivity |].
  simpl. rewrite IH, addMethod_lookup. unfold methodsOf. rewrite filter_cons.
  case_decide as Hrt; simpl.
  - destruct (filter _ methods) as [| m' group]; [reflexivity |].
    by rewrite <- app_assoc.
  - reflexivity.
Qed.

(** The group of a receiver type holds the methods of that type in the
    order of the method list; a type without methods has no group. *)
Lemma groupMethods_lookup (methods : list Method) (rt : string) :
  groupMethods methods !! rt
  = match methodsOf rt methods with
    | [] => None
    | group => Some group
    end.
Proof.
  unfold groupMethods. rewrite fold_addMethod_lookup, lookup_empty.
  by destruct (methodsOf rt methods).
Qed.

Lemma groupMethods_Some (methods : list Method) (rt : string) (group : list Method) :
  groupMethods methods !! rt = Some group ↔
  group = methodsOf rt methods ∧ group ≠ [].
Proof.
  rewrite groupMethods_lookup.
  destruct (methodsOf rt methods) as [| m l]; split.
  - discriminate.
  - intros [-> H]. done.
  - intros [= <-]. done.
  - intros [-> _]. done.
Qed.

Lemma methodsOf_nonempty (methods : list Method) (rt : string) :
  methodsOf rt methods ≠ [] ↔ rt ∈ m_ReceiverType <$> methods.
Proof.
  unfold methodsOf. rewrite list_elem_of_fmap. split.
  - intros Hne. destruct (filter _ methods) as [| m l] eqn:Hf; [done |].
    assert (Hm : m ∈ filter (fun m => m_ReceiverType m = rt) methods)
      by (rewrite Hf; apply list_elem_of_here).
    apply list_elem_of_filter in Hm as [Hrt Hin]. eauto.
  - intros (m & -> & Hin) Hnil.
    exact (filter_nil_not_elem_of _ _ m Hnil eq_refl Hin).
Qed.

Lemma elem_of_firstSeen (keys : list string) (k : string) :
  k ∈ firstSeen keys ↔ k ∈ keys.
Proof.
  induction keys as [| k0 keys IH]; simpl; [reflexivity |].
  rewrite !elem_of_cons, list_elem_of_filter, IH.
  destruct (decide (k = k0)); tauto.
Qed.

Lemma NoDup_firstSeen (keys : list string) : NoDup (firstSeen keys).
Proof.
  induction keys as [| k0 keys IH]; simpl; [constructor |].
  apply NoDup_cons. split.
  - rewrite list_elem_of_filter. intros [Hne _]. by apply Hne.
  - by apply NoDup_filter.
Qed.

#[global] Instance keyLe_total {V} : Total (@keyLe V).
Proof. intros a b. unfold keyLe. apply String.leb_total. Qed.

Lemma elem_of_templateRange {V} (m : gmap string V) (k : string) (v : V) :
  (k, v) ∈ templateRange m ↔ m !! k = Some v.
Proof.
  unfold templateRange. rewrite merge_sort_Permutation.
  apply elem_of_map_to_list.
Qed.

Lemma templateRange_keys {V} (m : gmap string V) :
  (templateRange m).*1 ≡ₚ (map_to_list m).*1.
Proof. unfold templateRange. by rewrite merge_sort_Permutation. Qed.

(** The render context is determined by the methods of each receiver
    type; the order in which the types first appear leaves no trace. *)
Lemma groupMethods_ext (methods methods' : list Method) :
  (∀ rt, methodsOf rt methods' = methodsOf rt methods) →
  groupMethods methods' = groupMethods methods.
Proof.
  intros H. apply map_eq. intros rt. by rewrite !groupMethods_lookup, H.
Qed.

(** C7, as stated, fails: [other_first.go] declares the method of
    [OtherApi] before those of [MyApi], so [OtherApi] is seen first; the
    render context is the same map as for [api.go], where [MyApi] is seen
    first, the template meets [MyApi] before [OtherApi] in both, and the
    two outputs are the same text. *)
Lemma C7_counterexample :
  parseFile Sample.env Sample.disk "other_first.go"
  = Ok (Sample.methodsIn "other_first.go")
  ∧ parseFile Sample.env Sample.disk "api.go" = Ok (Sample.methodsIn "api.go")
  ∧ firstSeen (m_ReceiverType <$> Sample.methodsIn "other_first.go")
    = ["OtherApi"; "MyApi"]
  ∧ firstSeen (m_ReceiverType <$> Sample.methodsIn "api.go")
    = ["MyApi"; "OtherApi"]
  ∧ (templateRange (groupMethods (Sample.methodsIn "other_first.go"))).*1
    = ["MyApi"; "OtherApi"]
  ∧ groupMethods (Sample.methodsIn "other_first.go")
    = groupMethods (Sample.methodsIn "api.go")
  ∧ Sample.outputFor "other_first.go"
    = Some "package example;func (h *MyApi) ServeHTTP:Profile,Create;func (h *OtherApi) ServeHTTP:Create;"
  ∧ Sample.outputFor "api.go" = Sample.outputFor "other_first.go".
Proof. vm_compute. repeat split; reflexivity. Qed.

(** C7, amended: the render context maps every receiver type of the
    method list (one group per distinct type, none for other names) to the
    methods of that type, and holds nothing of the order in which the types
    first appear: two method lists with the same methods per type give the
    same render context, whatever template is executed on it; a template
    that ranges over the map meets the groups in ascending order of the
    receiver type names. *)
Theorem C7_groups_by_key_not_first_seen (methods : list Method) :
  (templateRange (groupMethods methods)).*1 ≡ₚ firstSeen (m_ReceiverType <$> methods)
  ∧ Sorted keyLe (templateRange (groupMethods methods))
  ∧ (∀ rt group,
       (rt, group) ∈ templateRange (groupMethods methods) ↔
       group = methodsOf rt methods ∧ group ≠ [])
  ∧ (∀ methods',
       (∀ rt, methodsOf rt methods' = methodsOf rt methods) →
       groupMethods methods' = groupMethods methods
       ∧ ∀ (E : Externals) (packageName : string),
           handlerTemplate_Execute E
             {| PackageName := packageName; Methods := groupMethods methods' |}
           = handlerTemplate_Execute E
               {| PackageName := packageName; Methods := groupMethods methods |}).
Proof.
  split; [| split; [| split]].
  - apply NoDup_Permutation.
    + rewrite templateRange_keys. apply NoDup_fst_map_to_list.
    + apply NoDup_firstSeen.
    + intros rt. rewrite elem_of_firstSeen, <- methodsOf_nonempty.
      rewrite list_elem_of_fmap. split.
      * intros ([rt' group] & -> & Hin). simpl.
        apply elem_of_templateRange, groupMethods_Some in Hin as [-> Hne]. done.
      * intros Hne. exists (rt, methodsOf rt methods). split; [done |].
        apply elem_of_templateRange, groupMethods_Some. done.
  - unfold templateRange. apply Sorted_merge_sort. apply _.
  - intros rt group. rewrite elem_of_templateRange. apply groupMethods_Some.
  - intros methods' H. rewrite (groupMethods_ext _ _ H). done.
Qed.

(** The amended C7 at the methods of [other_first.go] against those of
    [api.go]. *)
Lemma C7_witness :
  groupMethods (Sample.methodsIn "api.go")
  = groupMethods (Sample.methodsIn "other_first.go").
Proof.
  destruct (C7_groups_by_key_not_first_seen (Sample.methodsIn "other_first.go"))
    as (_ & _ & _ & Hext).
  apply Hext. intros rt.
  assert (H : ∃ profile create other,
             Sample.methodsIn "api.go" = [profile; create; other]
             ∧ Sample.methodsIn "other_first.go" = [other; profile; create]
             ∧ m_ReceiverType profile = "MyApi"
             ∧ m_ReceiverType create = "MyApi"
             ∧ m_ReceiverType other = "OtherApi").
  { do 3 eexists. vm_compute. repeat split; reflexivity. }
  destruct H as (profile & create & other & -> & -> & R0 & R1 & R2).
  unfold methodsOf. rewrite !filter_cons, !filter_nil, R0, R1, R2.
  repeat case_decide; simpl in *; congruence.
Defined.

(** ** Declaration order *)

Lemma parseMethod_reads (E : Externals) (fs : FS) (funcDecl : FuncDecl)
    (comment filename : string) (m : Method) :
  parseMethod E fs funcDecl comment filename = Ok m →
  m_Name m = fd_Name funcDecl
  ∧ declReceiverType funcDecl = Some (m_ReceiverType m).
Proof.
  unfold parseMethod, declReceiverType.
  destruct (readSignature funcDecl) as [m0 | |] eqn:Hs; simpl; try discriminate.
  destruct (json_Unmarshal E _ _) as [a | |]; simpl; try discriminate.
  destruct (parseStructFields E fs filename _) as [fields | |]; simpl;
    try discriminate.
  intros [= <-]. simpl. split; [by apply readSignature_Name | reflexivity].
Qed.

Lemma Forall2_filter_agree {A B} (R : A → B → Prop) (P : A → Prop) (Q : B → Prop)
    `{∀ x, Decision (P x)} `{∀ y, Decision (Q y)} (l : list A) (k : list B) :
  Forall2 R l k →
  (∀ x y, R x y → (P x ↔ Q y)) →
  Forall2 R (filter P l) (filter Q k).
Proof.
  intros HR Hagree. induction HR as [| x y l k Hxy _ IH]; [constructor |].
  rewrite !filter_cons. specialize (Hagree x y Hxy).
  repeat case_decide; try tauto. by constructor.
Qed.

(** C8: the methods [parseFile] returns stand, one for one and in source
    order, for the annotated declarations of the file; the group of a
    receiver type is the sub-list of the methods of that type, so that
    within a group the methods appear in the order of their declarations
    in the source text. *)
Theorem C8_groups_keep_declaration_order (E : Externals) (fs : FS)
    (inputFile : string) (node : File) (methods : list Method) :
  ParseFile E fs inputFile ParseComments = Ok node →
  parseFile E fs inputFile = Ok methods →
  Forall2 (fun a m => parseMethod E fs a.1 a.2 inputFile = Ok m)
    (annotated (f_Decls node)) methods
  ∧ ∀ rt group,
      groupMethods methods !! rt = Some group →
      group = methodsOf rt methods
      ∧ Forall2 (fun a m => parseMethod E fs a.1 a.2 inputFile = Ok m)
          (filter (fun a => declReceiverType a.1 = Some rt) (annotated (f_Decls node)))
          group
      ∧ m_Name <$> group
        = (fun a => fd_Name a.1)
            <$> filter (fun a => declReceiverType a.1 = Some rt)
                  (annotated (f_Decls node)).
Proof.
  intros Hnode Hparse. unfold parseFile in Hparse. rewrite Hnode in Hparse.
  simpl in Hparse. apply scanDecls_Ok in Hparse as (new & -> & Hall). simpl.
  split; [exact Hall |].
  intros rt group Hgroup. apply groupMethods_Some in Hgroup as [-> _].
  assert (Hsub : Forall2 (fun a m => parseMethod E fs a.1 a.2 inputFile = Ok m)
                   (filter (fun a => declReceiverType a.1 = Some rt)
                      (annotated (f_Decls node)))
                   (methodsOf rt new)).
  { unfold methodsOf. apply Forall2_filter_agree; [exact Hall |].
    intros [fd c] m Hm. simpl in *.
    apply parseMethod_reads in Hm as [_ ->]. split; congruence. }
  split; [reflexivity | split; [exact Hsub |]].
  induction Hsub as [| [fd c] m l k Hm _ IH]; [reflexivity |].
  rewrite !fmap_cons. f_equal; [| exact IH].
  by apply parseMethod_reads in Hm as [-> _].
Qed.

(** C8 at [api.go]: the group of [MyApi] lists [Profile] before [Create],
    as the source declares them. *)
Lemma C8_witness :
  ∃ group, groupMethods (Sample.methodsIn "api.go") !! "MyApi" = Some group
           ∧ m_Name <$> group = ["Profile"; "Create"].
Proof.
  assert (Hg : ∃ group,
             groupMethods (Sample.methodsIn "api.go") !! "MyApi" = Some group)
    by (eexists; vm_compute; reflexivity).
  destruct Hg as [group Hgroup]. exists group. split; [exact Hgroup |].
  destruct (C8_groups_keep_declaration_order Sample.env Sample.disk "api.go"
              Sample.apiFile (Sample.methodsIn "api.go")) as [_ H].
  - reflexivity.
  - vm_compute. reflexivity.
  - destruct (H "MyApi" group Hgroup) as (_ & _ & ->).
    vm_compute. reflexivity.
Defined.

(** ** Determinism *)

Section SameInput.

Variable E : Externals.
Variables fs fs' : FS.
Variable filename : string.
Hypothesis Hsame : readFile fs' filename = readFile fs filename.

Lemma ParseFile_same (mode : ParseMode) :
  ParseFile E fs' filename mode = ParseFile E fs filename mode.
Proof. unfold ParseFile. unfold readFile in Hsame. by rewrite Hsame. Qed.

Lemma parseStructFields_same (structName : string) :
  parseStructFields E fs' filename structName
  = parseStructFields E fs filename structName.
Proof. unfold parseStructFields. by rewrite ParseFile_same. Qed.

Lemma parseMethod_same (funcDecl : FuncDecl) (comment : string) :
  parseMethod E fs' funcDecl comment filename
  = parseMethod E fs funcDecl comment filename.
Proof.
  unfold parseMethod.
  destruct (readSignature funcDecl) as [m | |]; simpl; try reflexivity.
  destruct (json_Unmarshal E _ _) as [a | |]; simpl; try reflexivity.
  by rewrite parseStructFields_same.
Qed.

Lemma scanDecls_same (decls : list Decl) (methods : list Method) :
  scanDecls E fs' decls filename methods = scanDecls E fs decls filename methods.
Proof.
  revert methods. induction decls as [| d decls IH]; intros methods; [reflexivity |].
  rewrite !scanDecls_cons. unfold stepDecl.
  destruct (annotatedOf d) as [[funcDecl comment] |]; simpl; [| apply IH].
  rewrite parseMethod_same.
  destruct (parseMethod E fs funcDecl comment filename); simpl;
    [apply IH | reflexivity | reflexivity].
Qed.

Lemma parseFile_same : parseFile E fs' filename = parseFile E fs filename.
Proof.
  unfold parseFile. rewrite ParseFile_same.
  destruct (ParseFile E fs filename ParseComments); simpl;
    [apply scanDecls_same | reflexivity | reflexivity].
Qed.

Lemma getPackageName_same : getPackageName E fs' filename = getPackageName E fs filename.
Proof. unfold getPackageName. by rewrite ParseFile_same. Qed.

(** The formatted code, or the failure before it, is the same from both
    file systems; they differ in the write alone. *)
Lemma Generate_same_code (outputFile : string) :
  ∃ formattedCode : outcome string,
    Generate E filename outputFile fs
    = match formattedCode with
      | Ok code => os_WriteFile fs outputFile code
      | Err e => (Err e, fs)
      | Panic p => (Panic p, fs)
      end
    ∧ Generate E filename outputFile fs'
      = match formattedCode with
        | Ok code => os_WriteFile fs' outputFile code
        | Err e => (Err e, fs')
        | Panic p => (Panic p, fs')
        end.
Proof.
  unfold Generate. rewrite parseFile_same, getPackageName_same.
  eexists. split; reflexivity.
Qed.

End SameInput.



(** * Further properties *)

(** ** The tag grammar, clause by clause *)

Lemma applyClause_unknown (r : ApiValidatorTag) (part : string) :
  clauseKey part ∉ knownKeys → applyClause r part = r.
Proof.
  unfold applyClause, knownKeys. generalize (clauseKey part) as key. intros key Hkey.
  repeat match goal with
    | |- context [String.eqb key ?lit] =>
        destruct (String.eqb_spec key lit) as [Heq | _];
        [exfalso; apply Hkey; rewrite Heq; list_member |]
    end.
  reflexivity.
Qed.

(** X1: clauses with a key the grammar does not know are ignored: the rule
    of a tag is the rule of its clauses with a known key, so that a tag
    without any known key (the empty tag among them) gives the zero
    rule. *)
Theorem X1_unknown_keys_ignored (lit : BasicLit) :
  parseApiValidatorTag (Some lit)
  = fold_left applyClause
      (filter (fun part => clauseKey part ∈ knownKeys) (tagClauses (Value lit)))
      zeroTag
  ∧ ((∀ part, part ∈ tagClauses (Value lit) → clauseKey part ∉ knownKeys) →
     parseApiValidatorTag (Some lit) = zeroTag).
Proof.
  assert (Hfold : ∀ parts r,
            fold_left applyClause parts r
            = fold_left applyClause
                (filter (fun part => clauseKey part ∈ knownKeys) parts) r).
  { induction parts as [| part parts IH]; intros r; [reflexivity |].
    rewrite filter_cons. case_decide as Hk; simpl.
    - apply IH.
    - rewrite (applyClause_unknown r part Hk). apply IH. }
  split; [apply Hfold |].
  intros Hall. simpl. rewrite Hfold.
  replace (filter _ (tagClauses (Value lit))) with (@nil string); [reflexivity |].
  symmetry. apply elem_of_nil_inv. intros part Hin.
  apply list_elem_of_filter in Hin as [Hk Hin]. exact (Hall part Hin Hk).
Qed.

(** X1 at the tag [json,omitempty]. *)
Lemma X1_witness :
  parseApiValidatorTag (Some {| Value := rawTag "json,omitempty" |}) = zeroTag.
Proof.
  apply X1_unknown_keys_ignored.
  intros part Hin. vm_compute in Hin.
  repeat (apply elem_of_cons in Hin as [-> | Hin]);
    [ .. | by apply elem_of_nil in Hin ];
    vm_compute; intros Hk;
    repeat (apply elem_of_cons in Hk as [Hk | Hk]; [discriminate Hk |]);
    by apply elem_of_nil in Hk.
Defined.

Lemma applyClause_Enum (r : ApiValidatorTag) (part : string) :
  Enum (applyClause r part)
  = if String.eqb (clauseKey part) "enum"
    then GoStrings.Split (clauseValue part) "|"
    else Enum r.
Proof.
  unfold applyClause. generalize (clauseKey part) as key. intros key.
  case_key; try (destruct (strToInt _) as [v [e|]]; simpl); reflexivity.
Qed.

Lemma applyClause_ParamName (r : ApiValidatorTag) (part : string) :
  ParamName (applyClause r part)
  = if String.eqb (clauseKey part) "paramname" then clauseValue part else ParamName r.
Proof.
  unfold applyClause. generalize (clauseKey part) as key. intros key.
  case_key; try (destruct (strToInt _) as [v [e|]]; simpl); reflexivity.
Qed.

Lemma applyClause_Default (r : ApiValidatorTag) (part : string) :
  Default (applyClause r part)
  = if String.eqb (clauseKey part) "default" then clauseValue part else Default r.
Proof.
  unfold applyClause. generalize (clauseKey part) as key. intros key.
  case_key; try (destruct (strToInt _) as [v [e|]]; simpl); reflexivity.
Qed.

(** A component of the rule that the clauses of a list leave alone comes
    out of the loop as it went in; the last clause that sets it decides
    it. *)
Lemma fold_untouched {A} (proj : ApiValidatorTag → A) (parts : list string)
    (r : ApiValidatorTag) :
  (∀ part, part ∈ parts → ∀ r', proj (applyClause r' part) = proj r') →
  proj (fold_left applyClause parts r) = proj r.
Proof.
  revert r. induction parts as [| part parts IH]; intros r Hall; [reflexivity |].
  simpl. rewrite IH.
  - apply Hall. apply list_elem_of_here.
  - intros p Hp. apply Hall. by apply list_elem_of_further.
Qed.

Lemma fold_last_wins {A} (proj : ApiValidatorTag → A) (pre post : list string)
    (part : string) (r : ApiValidatorTag) (x : A) :
  (∀ r', proj (applyClause r' part) = x) →
  (∀ p, p ∈ post → ∀ r', proj (applyClause r' p) = proj r') →
  proj (fold_left applyClause (pre ++ part :: post) r) = x.
Proof.
  intros Hset Hpost. rewrite fold_left_app. simpl.
  rewrite (fold_untouched proj post _ Hpost). apply Hset.
Qed.

Lemma Split_nonempty (s : string) (sep : ascii) : GoStrings.Split s sep ≠ [].
Proof.
  destruct s as [| c s]; simpl; [discriminate |].
  destruct (Ascii.eqb c sep); [discriminate |].
  destruct (GoStrings.Split s sep); discriminate.
Qed.

(** Joining the pieces of [strings.Split] with the separator gives the
    string back. *)
Lemma concat_Split (s : string) (sep : ascii) :
  String.concat (String sep EmptyString) (GoStrings.Split s sep) = s.
Proof.
  induction s as [| c s IH]; [reflexivity |]. simpl.
  pose proof (Split_nonempty s sep) as Hne.
  destruct (Ascii.eqb_spec c sep) as [-> | Hc].
  - destruct (GoStrings.Split s sep) as [| p ps]; [done |].
    change (String.concat (String sep EmptyString) (EmptyString :: p :: ps))
      with (String sep (String.concat (String sep EmptyString) (p :: ps))).
    by rewrite IH.
  - destruct (GoStrings.Split s sep) as [| p ps]; [done |].
    destruct ps as [| q ps]; simpl in *; by rewrite <- IH.
Qed.

(** X2: the allowed values of a rule are the pieces of the value of the
    last [enum] clause, cut at every bar and kept in order: joined by bars
    they give the value back, and there is always at least one piece, so
    that the clause [enum=] allows exactly the empty string.  A tag without
    an [enum] clause leaves the list empty. *)
Theorem X2_enum_of_last_clause (lit : BasicLit) :
  (∀ pre part post,
     tagClauses (Value lit) = pre ++ part :: post →
     clauseKey part = "enum" →
     (∀ p, p ∈ post → clauseKey p ≠ "enum") →
     Enum (parseApiValidatorTag (Some lit)) = GoStrings.Split (clauseValue part) "|"
     ∧ String.concat "|" (Enum (parseApiValidatorTag (Some lit))) = clauseValue part
     ∧ Enum (parseApiValidatorTag (Some lit)) ≠ [])
  ∧ ((∀ p, p ∈ tagClauses (Value lit) → clauseKey p ≠ "enum") →
     Enum (parseApiValidatorTag (Some lit)) = []).
Proof.
  split.
  - intros pre part post Hparts Hkey Hpost.
    assert (HE : Enum (parseApiValidatorTag (Some lit))
                 = GoStrings.Split (clauseValue part) "|").
    { simpl. rewrite Hparts. apply fold_last_wins.
      - intros r'. by rewrite applyClause_Enum, Hkey.
      - intros p Hp r'. rewrite applyClause_Enum.
        destruct (String.eqb_spec (clauseKey p) "enum") as [Hk | _]; [| reflexivity].
        by destruct (Hpost p Hp). }
    rewrite HE. split; [reflexivity | split].
    + apply concat_Split.
    + apply Split_nonempty.
  - intros Hnone. simpl. rewrite fold_untouched; [reflexivity |].
    intros p Hp r'. rewrite applyClause_Enum.
    destruct (String.eqb_spec (clauseKey p) "enum") as [Hk | _]; [| reflexivity].
    by destruct (Hnone p Hp).
Qed.

(** X2 at the tag of the field [Status] of [CreateParams], and at a tag
    whose last [enum] clause has no value. *)
Lemma X2_witness :
  Enum (parseApiValidatorTag
          (Some {| Value := rawTag "enum=user|moderator|admin,default=user" |}))
  = ["user"; "moderator"; "admin"]
  ∧ Enum (parseApiValidatorTag (Some {| Value := rawTag "enum=a|b,required,enum=" |}))
    = [EmptyString]
  ∧ Enum (parseApiValidatorTag (Some {| Value := rawTag "required,min=3" |})) = [].
Proof.
  split; [| split].
  - destruct (X2_enum_of_last_clause
                {| Value := rawTag "enum=user|moderator|admin,default=user" |})
      as [Hlast _].
    destruct (Hlast [] "enum=user|moderator|admin" ["default=user"]) as (-> & _).
    + reflexivity.
    + reflexivity.
    + intros p Hp. apply elem_of_cons in Hp as [-> | Hp]; [discriminate |].
      by apply elem_of_nil in Hp.
    + reflexivity.
  - destruct (X2_enum_of_last_clause {| Value := rawTag "enum=a|b,required,enum=" |})
      as [Hlast _].
    destruct (Hlast ["enum=a|b"; "required"] "enum=" []) as (-> & _).
    + reflexivity.
    + reflexivity.
    + intros p Hp. by apply elem_of_nil in Hp.
    + reflexivity.
  - apply X2_enum_of_last_clause.
    intros p Hp. vm_compute in Hp.
    repeat (apply elem_of_cons in Hp as [-> | Hp]);
      [ .. | by apply elem_of_nil in Hp ]; discriminate.
Defined.

(** X3: the bound a rule carries is the one of the last [min] (and of the
    last [max]) clause whose value scans as an integer; the clauses of that
    key after it, which do not scan, change nothing. *)
Theorem X3_last_parsable_bound_wins (lit : BasicLit) (pre post : list string)
    (part : string) (v : Z) :
  tagClauses (Value lit) = pre ++ part :: post →
  strToInt (clauseValue part) = (v, None) →
  (clauseKey part = "min" →
   (∀ p, p ∈ post → clauseKey p = "min" → (strToInt (clauseValue p)).2 ≠ None) →
   Min (parseApiValidatorTag (Some lit)) = Some v)
  ∧ (clauseKey part = "max" →
     (∀ p, p ∈ post → clauseKey p = "max" → (strToInt (clauseValue p)).2 ≠ None) →
     Max (parseApiValidatorTag (Some lit)) = Some v).
Proof.
  intros Hparts Hv. split; intros Hkey Hpost; simpl; rewrite Hparts;
    apply fold_last_wins.
  - intros r'. by rewrite applyClause_Min, Hkey, Hv.
  - intros p Hp r'. rewrite applyClause_Min.
    destruct (String.eqb_spec (clauseKey p) "min") as [Hk | _]; [| reflexivity].
    specialize (Hpost p Hp Hk).
    destruct (strToInt (clauseValue p)) as [w [e |]]; simpl in *; congruence.
  - intros r'. by rewrite applyClause_Max, Hkey, Hv.
  - intros p Hp r'. rewrite applyClause_Max.
    destruct (String.eqb_spec (clauseKey p) "max") as [Hk | _]; [| reflexivity].
    specialize (Hpost p Hp Hk).
    destruct (strToInt (clauseValue p)) as [w [e |]]; simpl in *; congruence.
Qed.

(** X3 at the tag [min=1,min=7,max=9,min=many]. *)
Lemma X3_witness :
  Min (parseApiValidatorTag (Some {| Value := rawTag "min=1,min=7,max=9,min=many" |}))
  = Some 7%Z
  ∧ Max (parseApiValidatorTag (Some {| Value := rawTag "min=1,min=7,max=9,min=many" |}))
    = Some 9%Z.
Proof.
  split.
  - destruct (X3_last_parsable_bound_wins
                {| Value := rawTag "min=1,min=7,max=9,min=many" |}
                ["min=1"] ["max=9"; "min=many"] "min=7" 7%Z) as [Hmin _];
      [reflexivity | reflexivity |].
    apply Hmin; [reflexivity |].
    intros p Hp Hk.
    repeat (apply elem_of_cons in Hp as [-> | Hp]);
      [ .. | by apply elem_of_nil in Hp ]; [discriminate Hk | vm_compute; discriminate].
  - destruct (X3_last_parsable_bound_wins
                {| Value := rawTag "min=1,min=7,max=9,min=many" |}
                ["min=1"; "min=7"] ["min=many"] "max=9" 9%Z) as [_ Hmax];
      [reflexivity | reflexivity |].
    apply Hmax; [reflexivity |].
    intros p Hp Hk.
    repeat (apply elem_of_cons in Hp as [-> | Hp]);
      [ .. | by apply elem_of_nil in Hp ]; discriminate Hk.
Defined.

(** ** [strToInt] *)


(** X4: [strToInt] returns without an error only values of Go's [int],
    and with an error always the value 0. *)
Theorem X4_strToInt_value (s : string) :
  match strToInt s with
  | (v, None) => inIntRange v
  | (v, Some _) => v = 0%Z
  end.
Proof.
  unfold strToInt, GoFmt.Sscanf_d.
  destruct (GoFmt.SkipSpace (String.length s) s) as [e | rest]; [reflexivity |].
  destruct rest as [| c rest]; [reflexivity |].
  destruct (GoFmt.acceptSign (String c rest)) as [neg [| c2 s2]]; [reflexivity |].
  destruct (GoFmt.scanDigits (String c2 s2) 0 0) as [mag [| n]]; [reflexivity |].
  destruct ((- 2 ^ (GoFmt.intBits - 1) <=? (if neg then - mag else mag))%Z
            && ((if neg then - mag else mag) <=? 2 ^ (GoFmt.intBits - 1) - 1)%Z)
    eqn:Hrange; [| reflexivity].
  apply andb_prop in Hrange as [Hlo Hhi]. apply Z.leb_le in Hlo, Hhi.
  unfold inIntRange. lia.
Qed.



Lemma isDigit_ascii (c : ascii) :
  GoFmt.isDigit c = true → (48 ≤ GoFmt.byteZ c ≤ 57)%Z.
Proof.
  unfold GoFmt.isDigit. intros H. apply andb_prop in H as [H1 H2].
  apply Z.leb_le in H1, H2. lia.
Qed.

(** A string that opens with a sign or a digit has no space to skip. *)
Lemma SkipSpace_no_space (n : nat) (c : ascii) (s : string) :
  (33 ≤ GoFmt.byteZ c < 128)%Z →
  GoFmt.SkipSpace n (String c s) = inr (String c s).
Proof.
  intros Hc. destruct n as [| n]; [reflexivity |]. simpl.
  destruct (GoFmt.byteZ c <? 128)%Z eqn:Hlt; [| apply Z.ltb_ge in Hlt; lia].
  destruct (GoFmt.byteZ c =? 10)%Z eqn:Hnl; [apply Z.eqb_eq in Hnl; lia |].
  replace (GoFmt.isSpace (GoFmt.byteZ c)) with false; [reflexivity |].
  symmetry. unfold GoFmt.isSpace.
  repeat (apply orb_false_intro);
    try (apply andb_false_iff; left; apply Z.leb_gt; lia);
    try (apply andb_false_iff; right; apply Z.leb_gt; lia);
    try (apply Z.eqb_neq; lia).
Qed.

Lemma scanDigits_stops (ds : string) (c : ascii) (t : string) (acc : Z) (n : nat) :
  allDigits ds = true → GoFmt.isDigit c = false →
  GoFmt.scanDigits (ds ++ String c t) acc n = GoFmt.scanDigits ds acc n.
Proof.
  revert acc n. induction ds as [| d ds IH]; intros acc n Hds Hc; simpl.
  - by rewrite Hc.
  - simpl in Hds. apply andb_prop in Hds as [Hd Hds]. rewrite Hd. by apply IH.
Qed.

(** X6: the scan of a number stops at the first character that is not a
    digit, and nothing from there on is looked at: digits (after an
    optional sign) followed by any text read as the digits alone, without
    an error. *)
Theorem X6_text_after_digits_ignored (sign ds : string) (c : ascii) (t : string) :
  sign = EmptyString ∨ sign = "+" ∨ sign = "-" →
  allDigits ds = true → ds ≠ EmptyString → GoFmt.isDigit c = false →
  strToInt (sign ++ ds ++ String c t) = strToInt (sign ++ ds).
Proof.
  intros Hsign Hds Hne Hc. unfold strToInt, GoFmt.Sscanf_d.
  destruct ds as [| d ds]; [done |]. simpl in Hds.
  apply andb_prop in Hds as [Hd Hds]. pose proof (isDigit_ascii d Hd) as Hdz.
  assert (Hscan : ∀ acc n,
            GoFmt.scanDigits (String d ds ++ String c t) acc n
            = GoFmt.scanDigits (String d ds) acc n).
  { intros acc n. apply scanDigits_stops; [| exact Hc]. simpl. by rewrite Hd, Hds. }
  destruct Hsign as [-> | [-> | ->]].
  - change (EmptyString ++ String d ds ++ String c t)%string
      with (String d (ds ++ String c t)%string).
    change (EmptyString ++ String d ds)%string with (String d ds).
    do 2 (rewrite (SkipSpace_no_space _ d); [| lia]).
    assert (Hnosign : ∀ r, GoFmt.acceptSign (String d r) = (false, String d r)).
    { intros r. unfold GoFmt.acceptSign.
      clear -Hd.
      destruct d as [[] [] [] [] [] [] [] []]; try reflexivity;
        vm_compute in Hd; discriminate Hd. }
    rewrite !Hnosign.
    change (String d (ds ++ String c t)%string) with (String d ds ++ String c t)%string.
    by rewrite Hscan.
  - change ("+" ++ String d ds ++ String c t)%string
      with (String "+" (String d ds ++ String c t)%string).
    change ("+" ++ String d ds)%string with (String "+" (String d ds)).
    do 2 (rewrite (SkipSpace_no_space _ "+");
            [| vm_compute; split; [discriminate | reflexivity]]).
    simpl GoFmt.acceptSign. cbv iota beta.
    change (String d ds ++ String c t)%string with (String d (ds ++ String c t)%string) at 1.
    cbv iota beta.
    change (String d (ds ++ String c t)%string) with (String d ds ++ String c t)%string.
    by rewrite Hscan.
  - change ("-" ++ String d ds ++ String c t)%string
      with (String "-" (String d ds ++ String c t)%string).
    change ("-" ++ String d ds)%string with (String "-" (String d ds)).
    do 2 (rewrite (SkipSpace_no_space _ "-");
            [| vm_compute; split; [discriminate | reflexivity]]).
    simpl GoFmt.acceptSign. cbv iota beta.
    change (String d ds ++ String c t)%string with (String d (ds ++ String c t)%string) at 1.
    cbv iota beta.
    change (String d (ds ++ String c t)%string) with (String d ds ++ String c t)%string.
    by rewrite Hscan.
Qed.

(** X6 at [-12px]: the value is -12, as for [-12]. *)
Lemma X6_witness : strToInt "-12px" = ((-12)%Z, None).
Proof.
  transitivity (strToInt "-12"); [| reflexivity].
  apply (X6_text_after_digits_ignored "-" "12" "p" "x").
  - right. right. reflexivity.
  - reflexivity.
  - discriminate.
  - reflexivity.
Defined.

(** ** Clauses and the literal of a tag *)

Lemma SplitN_no_separator (k : string) (sep : ascii) :
  GoStrings.inCutset sep k = false → GoStrings.SplitN k sep 2 = [k].
Proof.
  induction k as [| c k IH]; [reflexivity |]. simpl.
  rewrite (Ascii.eqb_sym sep c).
  destruct (Ascii.eqb c sep); simpl; [discriminate |].
  intros Hk. by rewrite (IH Hk).
Qed.

Lemma SplitN_first_separator (k v : string) (sep : ascii) :
  GoStrings.inCutset sep k = false →
  GoStrings.SplitN (k ++ String sep v) sep 2 = [k; v].
Proof.
  induction k as [| c k IH]; simpl.
  - intros _. rewrite Ascii.eqb_refl. by destruct v.
  - rewrite (Ascii.eqb_sym sep c).
    destruct (Ascii.eqb c sep); simpl; [discriminate |].
    intros Hk. by rewrite (IH Hk).
Qed.

(** X7: a clause is cut at its first equals sign only: the key is what
    stands before it and the value everything after it, further equals
    signs included; a clause without an equals sign is all key and has the
    empty value. *)
Theorem X7_clause_cut_at_first_equals (k v : string) :
  GoStrings.inCutset "=" k = false →
  clauseKey (k ++ "=" ++ v) = k
  ∧ clauseValue (k ++ "=" ++ v) = v
  ∧ clauseKey k = k
  ∧ clauseValue k = EmptyString.
Proof.
  intros Hk. unfold clauseKey, clauseValue.
  change (k ++ "=" ++ v)%string with (k ++ String "=" v)%string.
  rewrite (SplitN_first_separator k v "=" Hk), (SplitN_no_separator k "=" Hk).
  done.
Qed.

(** X7 at the clause [default=a=b]. *)
Lemma X7_witness :
  Default (parseApiValidatorTag (Some {| Value := rawTag "default=a=b" |})) = "a=b".
Proof.
  destruct (X7_clause_cut_at_first_equals "default" "a=b" eq_refl)
    as (Hkey & Hvalue & _).
  change (Default (applyClause zeroTag ("default" ++ "=" ++ "a=b")) = "a=b").
  rewrite applyClause_Default, Hkey, Hvalue. reflexivity.
Defined.

Lemma TrimRight_app_kept (x y cutset : string) :
  GoStrings.TrimRight y cutset ≠ EmptyString →
  GoStrings.TrimRight (x ++ y) cutset = (x ++ GoStrings.TrimRight y cutset)%string.
Proof.
  intros Hy. induction x as [| c x IH]; [reflexivity |]. simpl. rewrite IH.
  destruct x as [| c' x]; simpl.
  - destruct (GoStrings.TrimRight y cutset); [done | reflexivity].
  - reflexivity.
Qed.

Lemma TrimRight_app_trimmed (x y cutset : string) :
  GoStrings.TrimRight y cutset = EmptyString →
  GoStrings.TrimRight (x ++ y) cutset = GoStrings.TrimRight x cutset.
Proof.
  intros Hy. induction x as [| c x IH]; [exact Hy |]. simpl. by rewrite IH.
Qed.

Lemma HasPrefix_dquote (c : ascii) (text : string) :
  GoStrings.HasPrefix (String c text) dquote = false →
  GoStrings.inCutset c dquote = false.
Proof.
  destruct c as [[] [] [] [] [] [] [] []], text; vm_compute; intros H; exact H.
Qed.

(** X8: the literal of a struct tag parses as the text between its double
    quotes: the back quotes, the key [apivalidator:] and the double quotes
    are stripped, provided the text itself neither starts nor ends with a
    double quote. *)
Theorem X8_raw_tag_stripped (text : string) :
  GoStrings.HasPrefix text dquote = false →
  GoStrings.TrimRight text dquote = text →
  tagClauses (rawTag text) = GoStrings.Split text ","
  ∧ parseApiValidatorTag (Some {| Value := rawTag text |})
    = fold_left applyClause (GoStrings.Split text ",") zeroTag.
Proof.
  intros Hstart Hend.
  assert (Hclauses : tagClauses (rawTag text) = GoStrings.Split text ",").
  { unfold tagClauses, rawTag, GoStrings.Trim. f_equal.
    change ("`apivalidator:" ++ dquote ++ text ++ dquote ++ "`")%string
      with (String "`" ("apivalidator:" ++ dquote
                         ++ (text ++ String (ascii_of_nat 34) "`")))%string.
    change (GoStrings.TrimLeft (String "`" ?s) "`") with (GoStrings.TrimLeft s "`").
    change (GoStrings.TrimLeft ("apivalidator:" ++ ?s) "`")
      with ("apivalidator:" ++ s)%string.
    assert (Hback : GoStrings.TrimRight
                      ("apivalidator:" ++ dquote
                         ++ (text ++ String (ascii_of_nat 34) "`")) "`"
                    = ("apivalidator:" ++ dquote ++ (text ++ dquote))%string).
    { change ("apivalidator:" ++ dquote ++ (text ++ String (ascii_of_nat 34) "`"))%string
        with (("apivalidator:" ++ dquote) ++ (text ++ String (ascii_of_nat 34) "`"))%string.
      rewrite TrimRight_app_kept.
      - rewrite TrimRight_app_kept; [reflexivity | discriminate].
      - rewrite TrimRight_app_kept; [| discriminate].
        destruct text; discriminate. }
    rewrite Hback.
    change (GoStrings.TrimPrefix ("apivalidator:" ++ dquote ++ (text ++ dquote))
              "apivalidator:")
      with (String (ascii_of_nat 34) (text ++ dquote)).
    change (GoStrings.TrimLeft (String (ascii_of_nat 34) (text ++ dquote)) dquote)
      with (GoStrings.TrimLeft (text ++ dquote) dquote).
    destruct text as [| c text]; [reflexivity |].
    apply HasPrefix_dquote in Hstart.
    change (GoStrings.TrimLeft (String c text ++ dquote) dquote)
      with (if GoStrings.inCutset c dquote
            then GoStrings.TrimLeft (text ++ dquote) dquote
            else (String c text ++ dquote)%string).
    rewrite Hstart.
    rewrite TrimRight_app_trimmed; [exact Hend | reflexivity]. }
  split; [exact Hclauses |].
  simpl. by rewrite Hclauses.
Qed.

(** X8 at the tag of the field [Login] of [CreateParams]. *)
Lemma X8_witness :
  tagClauses (rawTag "required,min=10") = ["required"; "min=10"].
Proof.
  apply (X8_raw_tag_stripped "required,min=10"); reflexivity.
Defined.

(** ** The fields of an input type *)

Lemma structFieldOf_name (E : Externals) (field : Field) :
  sf_Name <$> structFieldOf E field = option_list (head (Names field)).
Proof. unfold structFieldOf. by destruct (Names field). Qed.

Lemma fields_names (E : Externals) (fields : list Field) :
  sf_Name <$> concat (map (structFieldOf E) fields)
  = omap (fun f => head (Names f)) fields.
Proof.
  induction fields as [| f fields IH]; [reflexivity |].
  simpl. rewrite fmap_app, IH, structFieldOf_name.
  by destruct (head (Names f)).
Qed.

Lemma typeSpecs_names (E : Externals) (structName : string) (specs : list TypeSpec) :
  sf_Name <$> concat (map (typeSpecFields E structName) specs)
  = omap (fun f => head (Names f))
      (concat (map (fun typeSpec =>
                      if String.eqb (ts_Name typeSpec) structName then
                        match ts_Type typeSpec with
                        | StructType fields => fields
                        | _ => []
                        end
                      else [])
                 specs)).
Proof.
  induction specs as [| ts specs IH]; [reflexivity |].
  simpl. rewrite fmap_app, omap_app, IH. f_equal.
  unfold typeSpecFields. destruct (String.eqb (ts_Name ts) structName); [| reflexivity].
  destruct (ts_Type ts); try reflexivity. apply fields_names.
Qed.

Lemma parseStructFields_Ok (E : Externals) (fs : FS) (filename structName : string)
    (node : File) :
  ParseFile E fs filename ParseComments = Ok node →
  ∃ fields,
    parseStructFields E fs filename structName = Ok fields
    ∧ sf_Name <$> fields
      = omap (fun f => head (Names f)) (declaredFields structName node)
    ∧ (declaredFields structName node = [] → fields = []).
Proof.
  intros Hnode. unfold parseStructFields. rewrite Hnode. simpl.
  eexists. split; [reflexivity |].
  pose proof (typeSpecs_names E structName (InspectTypeSpecs node)) as Hnames.
  split; [exact Hnames |].
  unfold declaredFields. intros Hnil. rewrite Hnil in Hnames.
  by apply fmap_nil_inv in Hnames.
Qed.

(** X9: when the file parses, [parseStructFields] never fails: it returns
    one field for every named field of every struct type declared under the
    name, anywhere in the file and in source order, under the first of the
    names the field declares; embedded fields are left out, and a name
    without a struct declaration gives the empty list.  When the file does
    not parse, the parser's error is returned. *)
Theorem X9_struct_fields (E : Externals) (fs : FS) (filename structName : string) :
  (∀ node,
     ParseFile E fs filename ParseComments = Ok node →
     ∃ fields,
       parseStructFields E fs filename structName = Ok fields
       ∧ sf_Name <$> fields
         = omap (fun f => head (Names f)) (declaredFields structName node)
       ∧ (declaredFields structName node = [] → fields = []))
  ∧ (∀ e, ParseFile E fs filename ParseComments = Err e →
          parseStructFields E fs filename structName = Err e).
Proof.
  split.
  - intros node. apply parseStructFields_Ok.
  - intros e Herr. unfold parseStructFields. by rewrite Herr.
Qed.

(** X10: the struct fields of every method [parseFile] returns are those
    of its input type: their names are the first names of the named fields
    declared for that type in the file. *)
Theorem X10_method_fields_of_input_type (E : Externals) (fs : FS)
    (inputFile : string) (node : File) (methods : list Method) (m : Method) :
  ParseFile E fs inputFile ParseComments = Ok node →
  parseFile E fs inputFile = Ok methods →
  m ∈ methods →
  sf_Name <$> m_StructFields m
  = omap (fun f => head (Names f)) (declaredFields (m_InputType m) node).
Proof.
  intros Hnode Hparse Hin.
  unfold parseFile in Hparse. rewrite Hnode in Hparse. simpl in Hparse.
  apply scanDecls_Ok in Hparse as (new & -> & Hall). simpl in Hin.
  apply list_elem_of_lookup_1 in Hin as [i Hi].
  destruct (Forall2_lookup_r _ _ _ _ _ Hall Hi) as ([fd c] & _ & Hm).
  simpl in Hm. unfold parseMethod in Hm.
  destruct (readSignature fd) as [m0 | |]; simpl in Hm; try discriminate.
  destruct (json_Unmarshal E _ _) as [a | |]; simpl in Hm; try discriminate.
  destruct (parseStructFields_Ok E fs inputFile (m_InputType m0) node Hnode)
    as (fields & Heq & Hnames & _).
  rewrite Heq in Hm. simpl in Hm. injection Hm as <-. exact Hnames.
Qed.

(** X9 at [search.go]: the struct declared at top level gives [Login] and
    [First] (its embedded field and the name [Last] are left out), the type
    of the same name inside the function body adds [Shadow]; a name that
    is not declared gives no field. *)
Lemma X9_witness :
  (∃ fields, parseStructFields Sample2.env Sample2.disk "search.go" "SearchParams"
             = Ok fields
             ∧ sf_Name <$> fields = ["Login"; "First"; "Shadow"])
  ∧ parseStructFields Sample2.env Sample2.disk "search.go" "Missing" = Ok []
  ∧ parseStructFields Sample2.env Sample2.disk "nope.go" "SearchParams"
    = Err "no such file or directory".
Proof.
  destruct (X9_struct_fields Sample2.env Sample2.disk "search.go" "SearchParams")
    as [Hok _].
  destruct (Hok Sample2.searchFile eq_refl) as (fields & Hf & Hnames & _).
  destruct (X9_struct_fields Sample2.env Sample2.disk "search.go" "Missing")
    as [Hmiss _].
  destruct (Hmiss Sample2.searchFile eq_refl) as (none & Hn & _ & Hnil).
  destruct (X9_struct_fields Sample2.env Sample2.disk "nope.go" "SearchParams")
    as [_ Herr].
  split; [| split].
  - exists fields. split; [exact Hf | exact Hnames].
  - rewrite Hn, (Hnil eq_refl). reflexivity.
  - apply Herr. reflexivity.
Defined.

(** X10 at the method [Search] of [search.go]. *)
Lemma X10_witness :
  ∃ m, parseFile Sample2.env Sample2.disk "search.go" = Ok [m]
       ∧ sf_Name <$> m_StructFields m = ["Login"; "First"; "Shadow"].
Proof.
  assert (Hm : ∃ m, parseFile Sample2.env Sample2.disk "search.go" = Ok [m])
    by (eexists; vm_compute; reflexivity).
  destruct Hm as [m Hm]. exists m. split; [exact Hm |].
  rewrite (X10_method_fields_of_input_type Sample2.env Sample2.disk "search.go"
             Sample2.searchFile [m] m eq_refl Hm (list_elem_of_here _ _)).
  assert (Hin : m_InputType m = "SearchParams").
  { vm_compute in Hm. by injection Hm as <-. }
  rewrite Hin. reflexivity.
Defined.

(** ** Which comment is the directive *)

Lemma find_first_match {A} (P : A → bool) (pre post : list A) (x : A) :
  Forall (fun y => P y = false) pre → P x = true →
  find P (pre ++ x :: post) = Some x.
Proof.
  intros Hpre Hx. induction Hpre as [| y pre Hy _ IH]; simpl.
  - by rewrite Hx.
  - by rewrite Hy.
Qed.

(** X11: of the comments of a doc comment the first one that starts with
    the directive prefix is the directive: the comments before it are
    passed over, and those after it, further directive lines included, are
    never looked at, so that the declaration is extracted exactly as if
    that comment were the whole doc comment. *)
Theorem X11_first_directive_line_wins (E : Externals) (fs : FS) (filename : string)
    (funcDecl : FuncDecl) (pre post : list string) (comment : string)
    (methods : list Method) :
  Forall (fun c => GoStrings.HasPrefix c directivePrefix = false) pre →
  GoStrings.HasPrefix comment directivePrefix = true →
  scanDoc E fs funcDecl (pre ++ comment :: post) filename methods
  = scanDoc E fs funcDecl [comment] filename methods
  ∧ (fd_Doc funcDecl = Some (pre ++ comment :: post) →
     directiveOf funcDecl = Some comment
     ∧ stepDecl E fs filename methods (FuncDeclD funcDecl)
       = (method ← parseMethod E fs funcDecl comment filename;
          Ok (methods ++ [method]))).
Proof.
  intros Hpre Hc.
  pose proof (find_first_match
                (fun c => GoStrings.HasPrefix c directivePrefix) pre post comment
                Hpre Hc) as Hfind.
  split.
  - rewrite !scanDoc_find, Hfind. simpl. by rewrite Hc.
  - intros Hdoc.
    assert (Hdir : directiveOf funcDecl = Some comment).
    { unfold directiveOf. by rewrite Hdoc. }
    split; [exact Hdir |]. unfold stepDecl. simpl. by rewrite Hdir.
Qed.

(** X11 at [search.go]: the method is extracted from the first directive
    line, although the second one does not decode. *)
Lemma X11_witness :
  directiveOf Sample2.Search = Some Sample.emptyDirective
  ∧ isOk (stepDecl Sample2.env Sample2.disk "search.go" []
            (FuncDeclD Sample2.Search)) = true.
Proof.
  destruct (X11_first_directive_line_wins Sample2.env Sample2.disk "search.go"
              Sample2.Search ["// Search looks users up."] [Sample.brokenDirective]
              Sample.emptyDirective []) as [_ H].
  - repeat constructor.
  - reflexivity.
  - destruct (H eq_refl) as [Hdir Hstep]. split; [exact Hdir |].
    rewrite Hstep. vm_compute. reflexivity.
Defined.

(** ** Inputs without methods, and inputs that do not parse *)

Lemma scanDecls_no_annotated (E : Externals) (fs : FS) (filename : string)
    (decls : list Decl) (methods : list Method) :
  annotated decls = [] → scanDecls E fs decls filename methods = Ok methods.
Proof.
  intros Hnone. apply scanDecls_Ok. exists []. rewrite Hnone, app_nil_r.
  split; [reflexivity | constructor].
Qed.

(** X12: a file in which no declaration carries a directive is not an
    error: [parseFile] returns the empty list, and [Generate] goes on to
    render the template on the empty map and writes what comes out. *)
Theorem X12_no_directive_empty_output (E : Externals) (fs : FS)
    (inputFile outputFile : string) (node : File) :
  ParseFile E fs inputFile ParseComments = Ok node →
  annotated (f_Decls node) = [] →
  parseFile E fs inputFile = Ok []
  ∧ ∀ packageName buf code,
      getPackageName E fs inputFile = Ok packageName →
      handlerTemplate_Execute E {| PackageName := packageName; Methods := ∅ |} = Ok buf →
      format_Source E buf = Ok code →
      Generate E inputFile outputFile fs = os_WriteFile fs outputFile code.
Proof.
  intros Hnode Hnone.
  assert (Hparse : parseFile E fs inputFile = Ok []).
  { unfold parseFile. rewrite Hnode. simpl. by apply scanDecls_no_annotated. }
  split; [exact Hparse |].
  intros packageName buf code Hpkg Hbuf Hcode.
  unfold Generate. rewrite Hparse, Hpkg. simpl.
  change (groupMethods []) with (∅ : gmap string (list Method)).
  rewrite Hbuf. simpl. by rewrite Hcode.
Qed.

(** X12 at [plain.go]. *)
Lemma X12_witness :
  parseFile Sample2.env Sample2.disk "plain.go" = Ok []
  ∧ readFile (Generate Sample2.env "plain.go" "out.go" Sample2.disk).2 "out.go"
    = Some "package example;".
Proof.
  destruct (X12_no_directive_empty_output Sample2.env Sample2.disk "plain.go" "out.go"
              Sample2.plainFile eq_refl eq_refl) as [Hparse Hgen].
  split; [exact Hparse |].
  rewrite (Hgen "example" "package example;" "package example;");
    reflexivity.
Defined.

(** X13: when the input file is missing or does not parse, [parseFile]
    and [Generate] return the error of the parser and the file system is
    as it was; the template is never executed. *)
Theorem X13_unparsable_input (E : Externals) (fs : FS)
    (inputFile outputFile : string) (e : error) :
  ParseFile E fs inputFile ParseComments = Err e →
  parseFile E fs inputFile = Err e
  ∧ Generate E inputFile outputFile fs = (Err e, fs).
Proof.
  intros Herr.
  assert (Hparse : parseFile E fs inputFile = Err e).
  { unfold parseFile. by rewrite Herr. }
  split; [exact Hparse |]. unfold Generate. by rewrite Hparse.
Qed.

(** X13 at a path that does not exist. *)
Lemma X13_witness :
  Generate Sample.env "nope.go" "out.go" Sample.disk
  = (Err "no such file or directory", Sample.disk).
Proof. apply X13_unparsable_input. reflexivity. Defined.

(** ** The groups as a partition of the methods *)

Lemma concat_Permutation {A} (l k : list (list A)) :
  l ≡ₚ k → concat l ≡ₚ concat k.
Proof.
  induction 1 as [| x l k _ IH | x y l | l k j _ IH1 _ IH2]; simpl.
  - reflexivity.
  - by rewrite IH.
  - rewrite !app_assoc. f_equiv. apply Permutation_app_comm.
  - by rewrite IH1.
Qed.

Lemma flat_addMethod (g : gmap string (list Method)) (m : Method) :
  concat (map_to_list (addMethod g m)).*2 ≡ₚ concat (map_to_list g).*2 ++ [m].
Proof.
  unfold addMethod. destruct (g !! m_ReceiverType m) as [group |] eqn:Hg; simpl.
  - rewrite <- insert_delete_eq.
    rewrite (concat_Permutation _ _
               (fmap_Permutation snd _ _
                  (map_to_list_insert (delete (m_ReceiverType m) g) _ _
                     (lookup_delete_eq _ _)))).
    rewrite <- (concat_Permutation _ _
                  (fmap_Permutation snd _ _ (map_to_list_delete g _ _ Hg))).
    simpl. rewrite <- !app_assoc. f_equiv. apply Permutation_app_comm.
  - rewrite (concat_Permutation _ _
               (fmap_Permutation snd _ _ (map_to_list_insert g _ [m] Hg))).
    simpl. apply Permutation_cons_append.
Qed.

Lemma flat_fold_addMethod (methods : list Method) (g : gmap string (list Method)) :
  concat (map_to_list (fold_left addMethod methods g)).*2
  ≡ₚ concat (map_to_list g).*2 ++ methods.
Proof.
  revert g. induction methods as [| m methods IH]; intros g; simpl.
  - by rewrite app_nil_r.
  - rewrite IH, flat_addMethod. by rewrite <- app_assoc.
Qed.

Lemma groupMethods_keys (methods : list Method) :
  (map_to_list (groupMethods methods)).*1 ≡ₚ firstSeen (m_ReceiverType <$> methods).
Proof.
  apply NoDup_Permutation.
  - apply NoDup_fst_map_to_list.
  - apply NoDup_firstSeen.
  - intros rt. rewrite elem_of_firstSeen, <- methodsOf_nonempty.
    rewrite list_elem_of_fmap. split.
    + intros ([rt' group] & -> & Hin). simpl.
      apply elem_of_map_to_list, groupMethods_Some in Hin as [-> Hne]. done.
    + intros Hne. exists (rt, methodsOf rt methods). split; [done |].
      apply elem_of_map_to_list, groupMethods_Some. done.
Qed.

(** X14: the groups partition the method list: taken together they hold
    the extracted methods, each as often as the list does; a method sits
    in the group of its own receiver type and in no other; and there are
    as many groups as there are distinct receiver types. *)
Theorem X14_groups_partition_methods (methods : list Method) :
  allGrouped (groupMethods methods) ≡ₚ methods
  ∧ (∀ rt group m,
       groupMethods methods !! rt = Some group → m ∈ group →
       m_ReceiverType m = rt ∧ m ∈ methods)
  ∧ (∀ m, m ∈ methods →
          ∃ group, groupMethods methods !! m_ReceiverType m = Some group ∧ m ∈ group)
  ∧ size (groupMethods methods) = length (firstSeen (m_ReceiverType <$> methods)).
Proof.
  split; [| split; [| split]].
  - unfold allGrouped, templateRange.
    rewrite (concat_Permutation _ _
               (fmap_Permutation snd _ _ (merge_sort_Permutation keyLe _))).
    unfold groupMethods. rewrite flat_fold_addMethod, map_to_list_empty.
    reflexivity.
  - intros rt group m Hgroup Hin.
    apply groupMethods_Some in Hgroup as [-> _].
    unfold methodsOf in Hin. apply list_elem_of_filter in Hin. exact Hin.
  - intros m Hin. exists (methodsOf (m_ReceiverType m) methods).
    assert (Hm : m ∈ methodsOf (m_ReceiverType m) methods).
    { unfold methodsOf. apply list_elem_of_filter. done. }
    split; [| exact Hm].
    apply groupMethods_Some. split; [reflexivity |].
    intros Hnil. rewrite Hnil in Hm. by apply elem_of_nil in Hm.
  - rewrite <- length_map_to_list, <- (length_fmap fst).
    apply Permutation_length, groupMethods_keys.
Qed.

(** X14 at the methods of [api.go]: three methods in two groups, and the
    first of them in the group of [MyApi]. *)
Lemma X14_witness :
  length (allGrouped (groupMethods (Sample.methodsIn "api.go"))) = 3
  ∧ size (groupMethods (Sample.methodsIn "api.go")) = 2
  ∧ ∃ m group, head (Sample.methodsIn "api.go") = Some m
               ∧ groupMethods (Sample.methodsIn "api.go") !! "MyApi" = Some group
               ∧ m ∈ group.
Proof.
  destruct (X14_groups_partition_methods (Sample.methodsIn "api.go"))
    as (Hperm & _ & Hin & Hsize).
  split; [| split].
  - rewrite (Permutation_length Hperm). vm_compute. reflexivity.
  - rewrite Hsize. vm_compute. reflexivity.
  - assert (Hm : ∃ m, head (Sample.methodsIn "api.go") = Some m
                      ∧ m_ReceiverType m = "MyApi")
      by (eexists; vm_compute; split; reflexivity).
    destruct Hm as (m & Hhead & Hrt).
    destruct (Hin m) as (group & Hgroup & Hmem).
    + apply head_Some_elem_of. exact Hhead.
    + exists m, group. rewrite Hrt in Hgroup.
      split; [exact Hhead | split; [exact Hgroup | exact Hmem]].
Defined.

(** ** What [Generate] leaves alone *)

(** X15: [Generate] touches no file but the output file: whatever the
    outcome, every other path reads as before, the input file among them
    when it is not the output path, and the set of paths that cannot be
    written is the same. *)
Theorem X15_generate_touches_output_only (E : Externals) (fs : FS)
    (inputFile outputFile other : string) :
  other ≠ outputFile →
  readFile (Generate E inputFile outputFile fs).2 other = readFile fs other
  ∧ denied (Generate E inputFile outputFile fs).2 = denied fs.
Proof.
  intros Hother.
  destruct (Generate_same_code E fs fs inputFile eq_refl outputFile)
    as (formattedCode & -> & _).
  destruct formattedCode as [code | e | p]; simpl; try done.
  unfold os_WriteFile. case_decide; simpl; [done |].
  split; [| reflexivity]. unfold readFile. simpl. by rewrite lookup_insert_ne.
Qed.

(** X15 at a run on [api.go]: the input reads as before the run. *)
Lemma X15_witness :
  readFile (Generate Sample.env "api.go" "out.go" Sample.disk).2 "api.go"
  = Some "<api.go>".
Proof.
  destruct (X15_generate_touches_output_only Sample.env Sample.disk
              "api.go" "out.go" "api.go") as [Hread _].
  - discriminate.
  - rewrite Hread. reflexivity.
Defined.

(** ** The entry point *)





(** ** The example API *)

Section ExampleApi.

Import Example.

(** X17: a user that [Create] accepts can be read back: for a login that
    is free (and is neither of the two logins the methods refuse),
    [Create] answers with the identifier [nextID] held before the call,
    and [Profile] on the state it leaves returns that user, with the name
    given and the status the map [statuses] holds for the status name (0
    when it holds none). *)
Theorem X17_create_then_profile (srv : MyApi) (inp : CreateParams) :
  cp_Login inp ≠ "bad_username" →
  cp_Login inp ≠ "bad_user" →
  users srv !! cp_Login inp = None →
  (Create srv inp).1 = inl {| nu_ID := nextID srv |}
  ∧ Profile (Create srv inp).2 {| pp_Login := cp_Login inp |}
    = inl {| u_ID := nextID srv; u_Login := cp_Login inp;
             u_FullName := cp_Name inp;
             u_Status := default 0%Z (statuses srv !! cp_Status inp) |}.
Proof.
  intros Hbad1 Hbad2 Hfree. unfold Create, Profile.
  apply String.eqb_neq in Hbad1, Hbad2.
  rewrite Hbad1, Hfree. simpl. rewrite Hbad2.
  by rewrite lookup_insert_eq.
Qed.

(** X17 at the first user created on the state of [NewMyApi]. *)
Lemma X17_witness :
  Profile (Create NewMyApi {| cp_Login := "mr.moderator"; cp_Name := "Ivan_Ivanov";
                              cp_Status := "moderator"; cp_Age := 32 |}).2
    {| pp_Login := "mr.moderator" |}
  = inl {| u_ID := 43; u_Login := "mr.moderator"; u_FullName := "Ivan_Ivanov";
           u_Status := 10 |}.
Proof.
  destruct (X17_create_then_profile NewMyApi
              {| cp_Login := "mr.moderator"; cp_Name := "Ivan_Ivanov";
                 cp_Status := "moderator"; cp_Age := 32 |}) as [_ H];
    [discriminate | discriminate | reflexivity | exact H].
Defined.

(** X18: [Create] fails in two cases only, the login [bad_username] (a
    plain error) and a login that is taken (an [ApiError] with status 409
    that names the login), and a call that fails leaves the state as it
    was: no user is stored and no identifier is used up. *)
Theorem X18_create_failure (srv : MyApi) (inp : CreateParams) (e : apiError) :
  (Create srv inp).1 = inr e →
  (Create srv inp).2 = srv
  ∧ ((cp_Login inp = "bad_username" ∧ e = errorString "bad user")
     ∨ (is_Some (users srv !! cp_Login inp)
        ∧ e = ApiError 409 ("user " ++ cp_Login inp ++ " exist"))).
Proof.
  unfold Create.
  destruct (String.eqb_spec (cp_Login inp) "bad_username") as [Hbad | _]; simpl.
  - intros [= <-]. split; [reflexivity |]. by left.
  - destruct (users srv !! cp_Login inp) as [user |] eqn:Huser; simpl.
    + intros [= <-]. split; [reflexivity |]. right. split; [by exists user | reflexivity].
    + discriminate.
Qed.

(** X18 at a second user under the login of the first. *)
Lemma X18_witness :
  Create NewMyApi {| cp_Login := "rvasily"; cp_Name := "Other"; cp_Status := "user";
                     cp_Age := 20 |}
  = (inr (ApiError 409 "user rvasily exist"), NewMyApi).
Proof.
  destruct (X18_create_failure NewMyApi
              {| cp_Login := "rvasily"; cp_Name := "Other"; cp_Status := "user";
                 cp_Age := 20 |} (ApiError 409 "user rvasily exist") eq_refl)
    as [Hstate _].
  apply injective_projections; [reflexivity | exact Hstate].
Defined.

(** X19: [Create] never changes or removes a user that is stored, and
    [Profile] for any other login answers after the call as it did
    before. *)
Theorem X19_create_keeps_users (srv : MyApi) (inp : CreateParams) :
  (∀ login user,
     users srv !! login = Some user →
     users (Create srv inp).2 !! login = Some user)
  ∧ (∀ p, pp_Login p ≠ cp_Login inp →
          Profile (Create srv inp).2 p = Profile srv p).
Proof.
  unfold Create, Profile.
  destruct (String.eqb (cp_Login inp) "bad_username"); simpl; [done |].
  destruct (users srv !! cp_Login inp) as [old |] eqn:Hold; simpl; [done |].
  split.
  - intros login user Huser.
    rewrite lookup_insert_ne; [exact Huser | congruence].
  - intros p Hp. by rewrite lookup_insert_ne.
Qed.

(** X19 at the user of [NewMyApi] after a further user is created. *)
Lemma X19_witness :
  ∃ user,
    users (Create NewMyApi {| cp_Login := "mr.moderator"; cp_Name := "Ivan_Ivanov";
                              cp_Status := "moderator"; cp_Age := 32 |}).2
      !! "rvasily" = Some user
    ∧ u_ID user = 42%Z.
Proof.
  eexists. split.
  - apply (X19_create_keeps_users NewMyApi). reflexivity.
  - reflexivity.
Defined.

(** X20: the state of [NewMyApi] is well formed, and [Create] keeps a
    state well formed as long as [nextID] is not the largest [uint64]:
    every user is filed under its login, identifiers stay below [nextID]
    and no two users share one; in particular the identifier [Create]
    hands out is carried by no user stored before. *)
Theorem X20_create_keeps_identifiers_unique (srv : MyApi) (inp : CreateParams) :
  wellFormed NewMyApi
  ∧ (wellFormed srv → (nextID srv < 2 ^ 64 - 1)%Z →
     wellFormed (Create srv inp).2
     ∧ ∀ login user, users srv !! login = Some user → u_ID user ≠ nextID srv).
Proof.
  split.
  - unfold wellFormed, NewMyApi. simpl. split; [lia |]. split.
    + intros login user Hl. apply lookup_insert_Some in Hl as [[<- <-] | [_ Hl]].
      * simpl. split; [reflexivity | unfold statusAdmin; lia].
      * by rewrite lookup_empty in Hl.
    + intros l1 l2 u1 u2 H1 H2 _.
      apply lookup_insert_Some in H1 as [[<- _] | [_ H1]];
        [| by rewrite lookup_empty in H1].
      apply lookup_insert_Some in H2 as [[<- _] | [_ H2]];
        [reflexivity | by rewrite lookup_empty in H2].
  - intros (Hnext & Hstored & Huniq) Hmax. split.
    + unfold Create.
      destruct (String.eqb (cp_Login inp) "bad_username"); simpl; [done |].
      destruct (users srv !! cp_Login inp) as [old |] eqn:Hold; simpl; [done |].
      assert (Hmod : ((nextID srv + 1) mod 2 ^ 64 = nextID srv + 1)%Z)
        by (apply Z.mod_small; lia).
      unfold wellFormed. simpl. rewrite Hmod. split; [lia |]. split.
      * intros login user Hl.
        apply lookup_insert_Some in Hl as [[<- <-] | [_ Hl]]; simpl.
        -- split; [reflexivity | lia].
        -- destruct (Hstored login user Hl) as [? ?]. split; [done | lia].
      * intros l1 l2 u1 u2 H1 H2 Hid.
        apply lookup_insert_Some in H1 as [[<- <-] | [Hn1 H1]];
          apply lookup_insert_Some in H2 as [[<- <-] | [Hn2 H2]]; simpl in *.
        -- reflexivity.
        -- destruct (Hstored l2 u2 H2) as [_ ?]. lia.
        -- destruct (Hstored l1 u1 H1) as [_ ?]. lia.
        -- by eapply Huniq.
    + intros login user Hl. destruct (Hstored login user Hl) as [_ ?]. lia.
Qed.

(** X20 at the state of [NewMyApi]: the state after the first [Create]
    is well formed. *)
Lemma X20_witness :
  wellFormed (Create NewMyApi {| cp_Login := "mr.moderator"; cp_Name := "Ivan_Ivanov";
                                 cp_Status := "moderator"; cp_Age := 32 |}).2.
Proof.
  destruct (X20_create_keeps_identifiers_unique NewMyApi
              {| cp_Login := "mr.moderator"; cp_Name := "Ivan_Ivanov";
                 cp_Status := "moderator"; cp_Age := 32 |}) as [Hinit Hstep].
  apply Hstep; [exact Hinit | vm_compute; reflexivity].
Defined.

End ExampleApi.

(** ** What a method record holds *)

Lemma readSignature_positions (funcDecl : FuncDecl) (m : Method) :
  readSignature funcDecl = Ok m →
  (∃ names tag rest,
     fd_Recv funcDecl
     = Some (mkField (m_ReceiverName m :: names)
               (StarExpr (Ident (m_ReceiverType m))) tag :: rest))
  ∧ (∃ first names tag rest,
       Params (fd_Type funcDecl)
       = first :: mkField names (Ident (m_InputType m)) tag :: rest)
  ∧ (∃ names tag rest,
       Results (fd_Type funcDecl)
       = Some (mkField names (StarExpr (Ident (m_OutputType m))) tag :: rest)).
Proof.
  unfold readSignature.
  destruct (fd_Recv funcDecl) as [[| [[| n ns] [] tag] recv] |]; simpl;
    try discriminate.
  destruct X; simpl; try discriminate.
  destruct (Params (fd_Type funcDecl)) as [| p0 [| [ns1 [] tag1] ps]]; simpl;
    try discriminate.
  destruct (Results (fd_Type funcDecl)) as [[| [ns2 [] tag2] rs] |]; simpl;
    try discriminate.
  destruct X; simpl; try discriminate.
  intros [= <-]. simpl. split; [| split]; repeat eexists.
Qed.

(** X21: the names a method record holds are read at fixed places of the
    declaration: the method name, the first name and the pointed-to type of
    the first receiver field, the type of the second parameter field and
    the pointed-to type of the first result field.  The first parameter,
    and every field after these, may be anything. *)
Theorem X21_method_names_by_position (E : Externals) (fs : FS)
    (funcDecl : FuncDecl) (comment filename : string) (m : Method) :
  parseMethod E fs funcDecl comment filename = Ok m →
  m_Name m = fd_Name funcDecl
  ∧ (∃ names tag rest,
       fd_Recv funcDecl
       = Some (mkField (m_ReceiverName m :: names)
                 (StarExpr (Ident (m_ReceiverType m))) tag :: rest))
  ∧ (∃ first names tag rest,
       Params (fd_Type funcDecl)
       = first :: mkField names (Ident (m_InputType m)) tag :: rest)
  ∧ (∃ names tag rest,
       Results (fd_Type funcDecl)
       = Some (mkField names (StarExpr (Ident (m_OutputType m))) tag :: rest)).
Proof.
  unfold parseMethod.
  destruct (readSignature funcDecl) as [m0 | |] eqn:Hs; simpl; try discriminate.
  destruct (json_Unmarshal E _ _) as [a | |]; simpl; try discriminate.
  destruct (parseStructFields E fs filename _) as [fields | |]; simpl;
    try discriminate.
  intros [= <-]. simpl. split; [by apply readSignature_Name |].
  by apply readSignature_positions.
Qed.

(** X21 at the method [Audit] of [audit.go]. *)
Lemma X21_witness :
  ∃ m, parseMethod Sample.env Sample.disk Sample.Audit Sample.emptyDirective "audit.go"
       = Ok m
       ∧ m_Name m = "Audit".
Proof.
  assert (Hm : ∃ m, parseMethod Sample.env Sample.disk Sample.Audit
                      Sample.emptyDirective "audit.go" = Ok m)
    by (eexists; vm_compute; reflexivity).
  destruct Hm as [m Hm]. exists m. split; [exact Hm |].
  destruct (X21_method_names_by_position _ _ _ _ _ _ Hm) as [Hname _].
  exact Hname.
Defined.

(** ** Spaces before a number, and separators inside a clause *)

(** X22: [strToInt] passes over any number of spaces and tabs in front of
    the number, and fails on a newline in front of it. *)
Theorem X22_strToInt_leading_space (blanks s : string) :
  allBlank blanks = true →
  strToInt (blanks ++ s) = strToInt s
  ∧ strToInt (blanks ++ String (ascii_of_nat 10) s)
    = (0%Z, Some "unexpected newline").
Proof.
  assert (Hstep : ∀ c t, isBlank c = true → strToInt (String c t) = strToInt t).
  { intros c t Hc. unfold isBlank in Hc.
    apply orb_prop in Hc as [Hc | Hc]; apply Ascii.eqb_eq in Hc; subst c;
      unfold strToInt, GoFmt.Sscanf_d; reflexivity. }
  induction blanks as [| c blanks IH]; intros Hb.
  - split; reflexivity.
  - simpl in Hb. apply andb_prop in Hb as [Hc Hb].
    change (String c blanks ++ s)%string with (String c (blanks ++ s)%string).
    change (String c blanks ++ String (ascii_of_nat 10) s)%string
      with (String c (blanks ++ String (ascii_of_nat 10) s)%string).
    rewrite !(Hstep c _ Hc). by apply IH.
Qed.

(** X22 at a number after three spaces and a tab. *)
Lemma X22_witness :
  strToInt ("   " ++ String (ascii_of_nat 9) "42") = (42%Z, None).
Proof.
  transitivity (strToInt "42"); [| reflexivity].
  apply (X22_strToInt_leading_space ("   " ++ String (ascii_of_nat 9) EmptyString) "42").
  reflexivity.
Defined.

Lemma Split_pieces_without_separator (s : string) (sep : ascii) (piece : string) :
  piece ∈ GoStrings.Split s sep → GoStrings.inCutset sep piece = false.
Proof.
  revert piece. induction s as [| c s IH]; intros piece; simpl.
  - intros Hin. apply elem_of_cons in Hin as [-> | Hin]; [reflexivity |].
    by apply elem_of_nil in Hin.
  - destruct (Ascii.eqb_spec c sep) as [-> | Hc].
    + intros Hin. apply elem_of_cons in Hin as [-> | Hin]; [reflexivity | by apply IH].
    + pose proof (Split_nonempty s sep) as Hne.
      destruct (GoStrings.Split s sep) as [| p ps]; [done |].
      intros Hin. apply elem_of_cons in Hin as [-> | Hin].
      * simpl. rewrite (IH p (list_elem_of_here _ _)), orb_false_r.
        apply Ascii.eqb_neq. congruence.
      * apply IH. by apply list_elem_of_further.
Qed.

(** X23: no clause of a tag contains a comma and no allowed value of a
    rule contains a bar: a comma inside a value ends the clause, and what
    follows it is read as the next clause. *)
Theorem X23_no_separator_inside (lit : BasicLit) :
  (∀ part, part ∈ tagClauses (Value lit) → GoStrings.inCutset "," part = false)
  ∧ (∀ value, value ∈ Enum (parseApiValidatorTag (Some lit)) →
              GoStrings.inCutset "|" value = false).
Proof.
  split.
  - intros part. unfold tagClauses. apply Split_pieces_without_separator.
  - assert (Hinv : ∀ parts r,
              (∀ value, value ∈ Enum r → GoStrings.inCutset "|" value = false) →
              ∀ value, value ∈ Enum (fold_left applyClause parts r) →
                       GoStrings.inCutset "|" value = false).
    { induction parts as [| part parts IH]; intros r Hr; [exact Hr |].
      simpl. apply IH. intros value. rewrite applyClause_Enum.
      destruct (String.eqb (clauseKey part) "enum"); [| apply Hr].
      apply Split_pieces_without_separator. }
    simpl. apply Hinv. intros value Hin. by apply elem_of_nil in Hin.
Qed.

(** X23 at the tag [enum=a,b|c]: the value of the clause is [a]. *)
Lemma X23_witness :
  Enum (parseApiValidatorTag (Some {| Value := rawTag "enum=a,b|c" |})) = ["a"]
  ∧ GoStrings.inCutset "," "enum=a" = false.
Proof.
  split; [reflexivity |].
  apply (X23_no_separator_inside {| Value := rawTag "enum=a,b|c" |}).
  vm_compute. list_member.
Defined.
